(** * scene_generation: probabilistic scene grammar and feasibility projection

    A shallow embedding of the grammar nodes and production rules of
    [models/probabilistic_scene_grammar_nodes.py], the spatial pose algebra
    of [models/probabilistic_scene_grammar_nodes_dish_bin.py] and the
    constructor of [ProjectToFeasibilityDist] in
    [models/planar_multi_object_multi_class_2_with_context.py].

    Conventions of the embedding.
    - A Python call that may raise is a value of [outcome]: [Ok v] or
      [Raise e].
    - Pose coordinates and log-probabilities are real numbers ([R]): the
      code computes them with [cos], [sin], [atan2], [sqrt] and [log], and
      the identities below are those of exact arithmetic.
    - Weights, keep-going flags and parameter tensors that the code only
      adds, divides and compares are rationals ([Q]), so that the
      constructors evaluate on concrete inputs.
    - A production rule is identified by its object identity, a [nat]:
      Python's [in], [==] and [list.index] on rule objects compare
      identities. *)

From Stdlib Require Import Reals Lra Lia List String ZArith QArith Bool.
From Stdlib Require Import Permutation RNsatz.
From Stdlib Require Import Ascii Decimal DecimalString DecimalNat.
Import ListNotations.

Set Implicit Arguments.

(** ** Python outcomes *)

Module Py.

Inductive exn : Set :=
| ValueError
| AssertionError
| NotImplementedError
| IndexError
| RuntimeError.

Inductive outcome (A : Type) : Type :=
| Ok (a : A)
| Raise (e : exn).

Arguments Ok {A} a.
Arguments Raise {A} e.

Definition bind {A B : Type} (m : outcome A) (k : A -> outcome B)
  : outcome B :=
  match m with
  | Ok a => k a
  | Raise e => Raise e
  end.

(** [assert(c)] *)
Definition assert (c : bool) : outcome unit :=
  if c then Ok tt else Raise AssertionError.

(** A [for] loop that appends one computed element per iteration and
    stops at the first exception. *)
Fixpoint for_each {A B : Type} (body : A -> outcome B) (l : list A)
  : outcome (list B) :=
  match l with
  | [] => Ok []
  | a :: rest =>
      bind (body a) (fun b =>
      bind (for_each body rest) (fun bs => Ok (b :: bs)))
  end.

(** [l.index(x)]: position of the first element equal to [x],
    [ValueError] when there is none. *)
Fixpoint index (x : nat) (l : list nat) : outcome nat :=
  match l with
  | [] => Raise ValueError
  | y :: rest =>
      if Nat.eqb y x then Ok 0%nat
      else bind (index x rest) (fun k => Ok (S k))
  end.

(** [x in l] *)
Definition contains (x : nat) (l : list nat) : bool :=
  existsb (Nat.eqb x) l.

(** [l1 == l2] on lists of rule objects. *)
Fixpoint list_eqb (l1 l2 : list nat) : bool :=
  match l1, l2 with
  | [], [] => true
  | a :: r1, b :: r2 => Nat.eqb a b && list_eqb r1 r2
  | _, _ => false
  end.

End Py.

Import Py.

Declare Scope py_scope.
Notation "x <- m ;; k" := (Py.bind m (fun x => k))
  (at level 61, m at next level, right associativity) : py_scope.
Notation "m ;;; k" := (Py.bind m (fun _ => k))
  (at level 61, right associativity) : py_scope.
Open Scope py_scope.

(** ** Log-probabilities

    A score is either [torch.tensor(-np.inf)] or a finite real. *)

Inductive logprob : Type :=
| NegInf
| Finite (x : R).



(** ** Planar pose algebra (x, y, theta) *)

Record Pose2 : Type := mkPose2 { p2_x : R; p2_y : R; p2_theta : R }.

Section PlanarPoses.
Local Open Scope R_scope.

(** [chain_pose_transforms(p_w1, p_12)]: pose 2 in the world frame. *)
Definition chain_pose_transforms (p_w1 p_12 : Pose2) : Pose2 :=
  let r := p2_theta p_w1 in
  {| p2_x := p2_x p_w1 + p2_x p_12 * cos r - p2_y p_12 * sin r;
     p2_y := p2_y p_w1 + p2_x p_12 * sin r + p2_y p_12 * cos r;
     p2_theta := p2_theta p_w1 + p2_theta p_12 |}.

(** [invert_pose(pose)] *)
Definition invert_pose (pose : Pose2) : Pose2 :=
  let r := p2_theta pose in
  {| p2_x := - (p2_x pose * cos (- r) - p2_y pose * sin (- r));
     p2_y := - (p2_x pose * sin (- r) + p2_y pose * cos (- r));
     p2_theta := - r |}.

End PlanarPoses.

(** ** Spatial pose algebra (xyz + roll, pitch, yaw)

    A pose tensor [pose] of six entries: [p6_x], [p6_y], [p6_z] are
    [pose[0..2]], [p6_roll] is [pose[3]], [p6_pitch] is [pose[4]] and
    [p6_yaw] is [pose[5]].  Matrices are row-major lists of rows. *)

Record Pose6 : Type := mkPose6 {
  p6_x : R; p6_y : R; p6_z : R;
  p6_roll : R; p6_pitch : R; p6_yaw : R
}.

Definition matrix : Type := list (list R).

Section SpatialPoses.
Local Open Scope R_scope.

(** [M[i, j]] *)
Definition entry (M : matrix) (i j : nat) : R :=
  nth j (nth i M []) 0.

Definition dot (u v : list R) : R :=
  fold_right Rplus 0 (map (fun p => fst p * snd p) (combine u v)).

(** [j]-th column of [M] *)
Definition column (M : matrix) (j : nat) : list R :=
  map (fun row => nth j row 0) M.

(** [torch.mm(A, B)]; [B] has as many columns as its first row. *)
Definition mm (A B : matrix) : matrix :=
  map (fun row =>
         map (fun j => dot row (column B j))
             (seq 0 (List.length (nth 0%nat B []))))
      A.

(** [sy >= 1E-6] decides the branch of [tf_matrix_to_pose]. *)
Definition singular_threshold : R := / 1000000.

(** [torch.atan2(y, x)], the angle of the point [(x, y)] in
    [(-PI, PI]]. *)
Definition atan2 (y x : R) : R :=
  if Rlt_dec 0 x then atan (y / x)
  else if Rlt_dec x 0 then
    if Rle_dec 0 y then atan (y / x) + PI else atan (y / x) - PI
  else
    if Rlt_dec 0 y then PI / 2
    else if Rlt_dec y 0 then - (PI / 2)
    else 0.

(** [rotation_tensor(theta, phi, psi)] = [rot_z * (rot_y * rot_x)]. *)
Definition rotation_tensor (theta phi psi : R) : matrix :=
  let rot_x := [ [1; 0; 0];
                 [0; cos theta; - sin theta];
                 [0; sin theta; cos theta] ] in
  let rot_y := [ [cos phi; 0; sin phi];
                 [0; 1; 0];
                 [- sin phi; 0; cos phi] ] in
  let rot_z := [ [cos psi; - sin psi; 0];
                 [sin psi; cos psi; 0];
                 [0; 0; 1] ] in
  mm rot_z (mm rot_y rot_x).

(** [pose_to_tf_matrix(pose)] *)
Definition pose_to_tf_matrix (pose : Pose6) : matrix :=
  let Rm := rotation_tensor (p6_roll pose) (p6_pitch pose) (p6_yaw pose) in
  [ [entry Rm 0 0; entry Rm 0 1; entry Rm 0 2; p6_x pose];
    [entry Rm 1 0; entry Rm 1 1; entry Rm 1 2; p6_y pose];
    [entry Rm 2 0; entry Rm 2 1; entry Rm 2 2; p6_z pose];
    [0; 0; 0; 1] ].

(** [tf_matrix_to_pose(tf)] *)
Definition tf_matrix_to_pose (tf : matrix) : Pose6 :=
  let sy := sqrt (entry tf 0 0 * entry tf 0 0 + entry tf 1 0 * entry tf 1 0) in
  if Rle_dec singular_threshold sy then
    {| p6_x := entry tf 0 3; p6_y := entry tf 1 3; p6_z := entry tf 2 3;
       p6_roll := atan2 (entry tf 2 1) (entry tf 2 2);
       p6_pitch := atan2 (- entry tf 2 0) sy;
       p6_yaw := atan2 (entry tf 1 0) (entry tf 0 0) |}
  else
    {| p6_x := entry tf 0 3; p6_y := entry tf 1 3; p6_z := entry tf 2 3;
       p6_roll := atan2 (- entry tf 1 2) (entry tf 1 1);
       p6_pitch := atan2 (- entry tf 2 0) sy;
       p6_yaw := 0 |}.

(** [invert_tf(tf)]: rotation block transposed, translation
    [-R.' T]. *)
Definition invert_tf (tf : matrix) : matrix :=
  let Rt := [ [entry tf 0 0; entry tf 1 0; entry tf 2 0];
              [entry tf 0 1; entry tf 1 1; entry tf 2 1];
              [entry tf 0 2; entry tf 1 2; entry tf 2 2] ] in
  let T := [ [entry tf 0 3]; [entry tf 1 3]; [entry tf 2 3] ] in
  let nRt := map (map (fun a => -1 * a)) Rt in
  let t := mm nRt T in
  [ [entry Rt 0 0; entry Rt 0 1; entry Rt 0 2; entry t 0 0];
    [entry Rt 1 0; entry Rt 1 1; entry Rt 1 2; entry t 1 0];
    [entry Rt 2 0; entry Rt 2 1; entry Rt 2 2; entry t 2 0];
    [0; 0; 0; 1] ].

(** The spatial form of [chain(invert(p), chain(p, q))]: the transforms
    of [p] and [q] are multiplied, the inverse transform of [p] is
    multiplied in front, and the product is read back as a pose. *)
Definition spatial_round_trip (p q : Pose6) : Pose6 :=
  tf_matrix_to_pose
    (mm (invert_tf (pose_to_tf_matrix p))
        (mm (pose_to_tf_matrix p) (pose_to_tf_matrix q))).

(** The poses [tf_matrix_to_pose] can return unchanged: roll and yaw in
    [(-PI, PI]], pitch in [[-PI/2, PI/2]], and either the non-singular
    branch is taken or the yaw is the 0 the singular branch writes. *)
Definition principal_rpy (q : Pose6) : Prop :=
  - PI < p6_roll q <= PI
  /\ - (PI / 2) <= p6_pitch q <= PI / 2
  /\ - PI < p6_yaw q <= PI
  /\ (singular_threshold <= cos (p6_pitch q) \/ p6_yaw q = 0).

End SpatialPoses.

(** ** Categorical distributions over rational weights *)

Definition Qsum (w : list Q) : Q := fold_right Qplus 0%Q w.

(** [torch.finfo(torch.float32).eps], that is 2^-23: the weight tensors
    are taken in torch's default dtype. *)
Definition float32_eps : R := / 8388608.

(** [clamp_probs]: [probs.clamp(min=eps, max=1 - eps)]. *)
Definition clamp_probs (p : R) : R :=
  Rmin (Rmax p float32_eps) (1 - float32_eps).

(** [dist.Categorical(w)], with the argument validation that the entry
    scripts switch on ([pyro.enable_validation(True)]): the weights are
    divided by their sum and the quotients must lie on the simplex.  A
    zero sum turns every quotient into nan, which fails the check like a
    negative quotient does; the constructor then raises [ValueError]. *)
Definition Categorical (w : list Q) : outcome (list Q) :=
  let s := Qsum w in
  if Qeq_bool s 0 then Raise ValueError
  else
    let probs := map (fun x => (x / s)%Q) w in
    if forallb (Qle_bool 0) probs then Ok probs else Raise ValueError.

(** [dist.Categorical(w).log_prob(i)]: entry [i] of the distribution's
    [logits], which are the logarithms of the clamped probabilities.  A
    category of weight zero scores log eps, not -inf. *)
Definition Categorical_log_prob (w : list Q) (i : nat) : logprob :=
  Finite (ln (clamp_probs (Q2R (nth i w 0%Q / Qsum w)))).

(** The value a [pyro.sample] statement returns: the observation when
    one is passed as [obs=], the fresh draw otherwise. *)
Definition pyro_sample {A : Type} (draw : A) (obs : option A) : A :=
  match obs with
  | Some v => v
  | None => draw
  end.

(** ** Grammar nodes *)

(** Object identity of a [ProductionRule] instance. *)
Definition rule : Type := nat.

Module OrNode.

Record t : Type := mk {
  name : string;
  production_rules : list rule;
  production_weights : list Q
}.

Definition __init__ (name : string) (production_rules : list rule)
  (production_weights : list Q) : outcome t :=
  if negb (List.length production_weights =? List.length production_rules)%nat
  then Raise ValueError
  else if (List.length production_weights =? 0)%nat
  then Raise ValueError
  else
    Categorical production_weights ;;;
    Ok (mk name production_rules production_weights).

(** The membership test only prints a warning; [list.index] then raises
    [ValueError] for a rule that is not in the list.  Indexing
    [production_rules[0]] of an empty list raises [IndexError]. *)
Definition _recover_active_rule (self : t) (production_rules : list rule)
  : outcome nat :=
  match production_rules with
  | [] => Raise IndexError
  | r :: _ => Py.index r self.(OrNode.production_rules)
  end.

(** [draw] is the category the sampler draws when nothing is observed. *)
Definition sample_production_rules (self : t) (draw : nat)
  (obs_production_rules : option (list rule)) : outcome (list rule) :=
  active_rule <-
    match obs_production_rules with
    | Some obs => a <- _recover_active_rule self obs ;; Ok (Some a)
    | None => Ok None
    end ;;
  let active_rule := pyro_sample draw active_rule in
  match nth_error self.(OrNode.production_rules) active_rule with
  | Some r => Ok [r]
  | None => Raise IndexError
  end.

Definition score_production_rules (self : t) (production_rules : list rule)
  : outcome logprob :=
  if negb (List.length production_rules =? 1)%nat then Ok NegInf
  else
    active_rule <- _recover_active_rule self production_rules ;;
    Ok (Categorical_log_prob self.(OrNode.production_weights) active_rule).

End OrNode.

Module AndNode.

Record t : Type := mk {
  name : string;
  production_rules : list rule
}.

Definition __init__ (name : string) (production_rules : list rule)
  : outcome t :=
  if (List.length production_rules =? 0)%nat then Raise ValueError
  else Ok (mk name production_rules).

Definition sample_production_rules (self : t)
  (obs_production_rules : option (list rule)) : outcome (list rule) :=
  match obs_production_rules with
  | Some obs =>
      Py.assert (Py.list_eqb obs self.(AndNode.production_rules)) ;;;
      Ok self.(AndNode.production_rules)
  | None => Ok self.(AndNode.production_rules)
  end.

(** Both branches of the source return [torch.tensor(-np.inf)]. *)
Definition score_production_rules (self : t) (production_rules : list rule)
  : logprob :=
  if negb (Py.list_eqb production_rules self.(AndNode.production_rules))
  then NegInf
  else NegInf.

End AndNode.

(** What [_recover_selected_rules] of a set node returns: the recovered
    selection, or [torch.tensor(-np.inf)] after the warning for a rule
    that is not the node's. *)
Inductive recovered (A : Type) : Type :=
| Selection (a : A)
| NegInfTensor.

Arguments Selection {A} a.
Arguments NegInfTensor {A}.

Module CovaryingSetNode.

(** An entry of the weight tensor after the in-place division:
    [None] is the nan of 0/0. *)
Definition weight : Type := option Q.

Record t : Type := mk {
  name : string;
  exhaustive_set_weights : list weight;
  production_rules : list rule
}.

(** [init_weights[i] = val]; an index past the end raises
    [IndexError]. *)
Fixpoint setitem (w : list Q) (i : nat) (val : Q) : outcome (list Q) :=
  match w, i with
  | [], _ => Raise IndexError
  | _ :: rest, O => Ok (val :: rest)
  | x :: rest, S i' => rest' <- setitem rest i' val ;; Ok (x :: rest')
  end.

(** The inner loop over the indices of one hint; every index is
    asserted to lie in [0, len(production_rules)). *)
Fixpoint combination_index (n : nat) (hint : list Z) (acc : nat)
  : outcome nat :=
  match hint with
  | [] => Ok acc
  | index :: rest =>
      Py.assert ((0 <=? index)%Z && (index <? Z.of_nat n)%Z) ;;;
      combination_index n rest (acc + 2 ^ Z.to_nat index)%nat
  end.

(** The loop over [production_weights_hints.keys()], in the dictionary's
    iteration order. *)
Fixpoint apply_hints (n : nat) (hints : list (list Z * Q)) (w : list Q)
  : outcome (list Q) :=
  match hints with
  | [] => Ok w
  | (hint, val) :: rest =>
      Py.assert (Qle_bool 0 val) ;;;
      ci <- combination_index n hint 0 ;;
      w' <- setitem w ci val ;;
      apply_hints n rest w'
  end.

(** [init_weights /= torch.sum(init_weights)] *)
Definition normalize (w : list Q) : list weight :=
  let s := Qsum w in
  map (fun x => if Qeq_bool s 0 then None else Some (x / s)%Q) w.

(** [dist.Categorical(logits=torch.log(w))], with the argument
    validation that the entry scripts switch on: the logits are shifted
    by their log-sum-exp and must not hold a nan.  The logarithm of a
    nan or of a negative weight is nan, and so is every shifted logit
    when no weight is positive; the -inf of a zero weight next to a
    positive one is accepted.  A nan raises [ValueError]. *)
Definition Categorical_logits (w : list weight) : outcome unit :=
  if forallb (fun x => match x with
                       | Some q => Qle_bool 0 q
                       | None => false
                       end) w
     && existsb (fun x => match x with
                          | Some q => negb (Qle_bool q 0)
                          | None => false
                          end) w
  then Ok tt
  else Raise ValueError.

(** The constructor, run against an empty parameter store, where
    [pyro.param] returns its initial value. *)
Definition __init__ (name : string) (production_rules : list rule)
  (production_weights_hints : list (list Z * Q)) (remaining_weight : Q)
  : outcome t :=
  Py.assert (Qle_bool 0 remaining_weight) ;;;
  let num_combinations := (2 ^ List.length production_rules + 1)%nat in
  let init_weights := repeat remaining_weight num_combinations in
  init_weights <- apply_hints (List.length production_rules)
                    production_weights_hints init_weights ;;
  let exhaustive_set_weights := normalize init_weights in
  Categorical_logits exhaustive_set_weights ;;;
  Ok (mk name exhaustive_set_weights production_rules).

Fixpoint recover_loop (own : list rule) (production_rules : list rule)
  (selected_rules : nat) : outcome (recovered nat) :=
  match production_rules with
  | [] => Ok (Selection selected_rules)
  | r :: rest =>
      if negb (Py.contains r own) then Ok NegInfTensor
      else
        k <- Py.index r own ;;
        recover_loop own rest (selected_rules + 2 ^ k)%nat
  end.

Definition _recover_selected_rules (self : t) (production_rules : list rule)
  : outcome (recovered nat) :=
  res <- recover_loop self.(CovaryingSetNode.production_rules) production_rules 0 ;;
  match res with
  | NegInfTensor => Ok NegInfTensor
  | Selection selected_rules =>
      Py.assert (selected_rules <=? List.length self.(CovaryingSetNode.exhaustive_set_weights))%nat ;;;
      Ok (Selection selected_rules)
  end.

End CovaryingSetNode.

Module IndependentSetNode.

Record t : Type := mk {
  name : string;
  production_rules : list rule;
  production_probs : list Q
}.

Definition __init__ (name : string) (production_rules : list rule)
  (production_probs : list Q) : outcome t :=
  if negb (List.length production_probs =? List.length production_rules)%nat
  then Raise ValueError
  else Ok (mk name production_rules production_probs).

(** [selected_rules[k] = 1] on the 0/1 selection tensor. *)
Fixpoint set_one (sel : list bool) (k : nat) : list bool :=
  match sel, k with
  | [], _ => []
  | _ :: rest, O => true :: rest
  | b :: rest, S k' => b :: set_one rest k'
  end.

Fixpoint recover_loop (own : list rule) (production_rules : list rule)
  (selected_rules : list bool) : outcome (recovered (list bool)) :=
  match production_rules with
  | [] => Ok (Selection selected_rules)
  | r :: rest =>
      if negb (Py.contains r own) then Ok NegInfTensor
      else
        k <- Py.index r own ;;
        recover_loop own rest (set_one selected_rules k)
  end.

Definition _recover_selected_rules (self : t) (production_rules : list rule)
  : outcome (recovered (list bool)) :=
  recover_loop self.(IndependentSetNode.production_rules) production_rules
    (repeat false (List.length self.(IndependentSetNode.production_rules))).

End IndependentSetNode.

(** ** Pose-bearing production rules *)

Inductive node_class : Set :=
| PlaceSetting | Plate | Cup | Fork | Knife | Spoon | Mug_1 | Plate_11in.

Definition node_class_eqb (a b : node_class) : bool :=
  match a, b with
  | PlaceSetting, PlaceSetting | Plate, Plate | Cup, Cup | Fork, Fork
  | Knife, Knife | Spoon, Spoon | Mug_1, Mug_1 | Plate_11in, Plate_11in => true
  | _, _ => false
  end.

(** [cls.__name__] *)
Definition class_name (c : node_class) : string :=
  match c with
  | PlaceSetting => "PlaceSetting" | Plate => "Plate" | Cup => "Cup"
  | Fork => "Fork" | Knife => "Knife" | Spoon => "Spoon"
  | Mug_1 => "Mug_1" | Plate_11in => "Plate_11in"
  end.

(** A node instance carrying a pose of type [P]. *)
Record Node (P : Type) : Type := mkNode {
  node_type : node_class;
  node_name : string;
  node_pose : P
}.

(** The record a [pyro.sample] statement leaves in the trace. *)
Record Site (P : Type) : Type := mkSite {
  site_name : string;
  site_value : P;
  site_is_observed : bool
}.

Definition pyro_site {P : Type} (name : string) (draw : P) (obs : option P)
  : Site P :=
  mkSite name (pyro_sample draw obs)
         (match obs with Some _ => true | None => false end).

(** [len(products) == 1 and isinstance(products[0], cls)] *)
Definition single_instance_of {P : Type} (cls : node_class)
  (products : list (Node P)) : bool :=
  match products with
  | [p] => node_class_eqb p.(node_type) cls
  | _ => false
  end.

Module PlaceSettingNode.
Module ObjectProductionRule.

Record t : Type := mk {
  name : string;
  object_name : string;
  object_type : node_class
}.

Definition _recover_rel_pose_from_abs_pose (self : t) (parent_pose : Pose2)
  (abs_pose : Pose2) : Pose2 :=
  chain_pose_transforms (invert_pose parent_pose) abs_pose.

(** [draw] is the relative pose [offset_dist] yields when the sample
    site is not observed. *)
Definition __call__ (self : t) (parent_pose : Pose2)
  (obs_products : option (list (Node Pose2))) (draw : Pose2)
  : outcome (list (Node Pose2) * Site Pose2) :=
  obs_rel_pose <-
    match obs_products with
    | Some obs =>
        Py.assert (single_instance_of self.(object_type) obs) ;;;
        match obs with
        | p :: _ =>
            Ok (Some (_recover_rel_pose_from_abs_pose self parent_pose
                        p.(node_pose)))
        | [] => Raise IndexError
        end
    | None => Ok None
    end ;;
  let site := pyro_site (self.(name) ++ "_pose") draw obs_rel_pose in
  let rel_pose := site.(site_value) in
  let abs_pose := chain_pose_transforms parent_pose rel_pose in
  Ok ([mkNode self.(object_type)
              (self.(name) ++ "_" ++ self.(object_name)) abs_pose],
      site).

End ObjectProductionRule.
End PlaceSettingNode.

Module Table.
Module PlaceSettingProductionRule.

Record t : Type := mk {
  name : string;
  pose : Pose2
}.

Definition _recover_rel_offset_from_abs_offset (self : t)
  (parent_pose : Pose2) (abs_offset : Pose2) : Pose2 :=
  let pose_in_world := chain_pose_transforms parent_pose self.(pose) in
  chain_pose_transforms (invert_pose pose_in_world) abs_offset.

(** The source computes [obs_rel_offset] and then calls [pyro.sample]
    without [obs=]: the site is never observed. *)
Definition __call__ (self : t) (parent_pose : Pose2)
  (obs_products : option (list (Node Pose2))) (draw : Pose2)
  : outcome (list (Node Pose2) * Site Pose2) :=
  obs_rel_offset <-
    match obs_products with
    | Some obs =>
        Py.assert (single_instance_of PlaceSetting obs) ;;;
        match obs with
        | p :: _ =>
            Ok (Some (_recover_rel_offset_from_abs_offset self parent_pose
                        p.(node_pose)))
        | [] => Raise IndexError
        end
    | None => Ok None
    end ;;
  let site := pyro_site (self.(name) ++ "_place_setting_offset") draw None in
  let rel_offset := site.(site_value) in
  let pose_in_world := chain_pose_transforms parent_pose self.(pose) in
  let abs_offset := chain_pose_transforms pose_in_world rel_offset in
  Ok ([mkNode PlaceSetting (self.(name) ++ "_place_setting") abs_offset],
      site).

End PlaceSettingProductionRule.
End Table.

Module DishBin.
Module ObjectProductionRule.

Record t : Type := mk {
  name : string;
  pose : Pose6;
  product_type : node_class
}.

(** [my_pose_in_world_tf] is computed and the inverse is then taken of
    [my_pose_tf]. *)
Definition _recover_rel_offset_from_abs_offset (self : t)
  (parent_pose : Pose6) (abs_offset : Pose6) : Pose6 :=
  let my_pose_tf := pose_to_tf_matrix self.(pose) in
  let parent_pose_tf := pose_to_tf_matrix parent_pose in
  let my_pose_in_world_tf := mm parent_pose_tf my_pose_tf in
  let rel_tf := mm (invert_tf my_pose_tf) (pose_to_tf_matrix abs_offset) in
  tf_matrix_to_pose rel_tf.

(** The unobserved branch of [sample_products]: the relative offset
    chained on top of the rule's pose in the world. *)
Definition forward_chain (self : t) (parent_pose : Pose6)
  (rel_offset : Pose6) : Pose6 :=
  let my_pose_tf := pose_to_tf_matrix self.(pose) in
  let parent_pose_tf := pose_to_tf_matrix parent_pose in
  let my_pose_in_world_tf := mm parent_pose_tf my_pose_tf in
  let offset_tf := pose_to_tf_matrix rel_offset in
  tf_matrix_to_pose (mm my_pose_in_world_tf offset_tf).

Definition sample_products (self : t) (parent_pose : Pose6)
  (obs_products : option (list (Node Pose6))) (draw : Pose6)
  : outcome (list (Node Pose6) * Site Pose6) :=
  let product_name := class_name self.(product_type) in
  let site_label :=
    (self.(name) ++ "_" ++ product_name ++ "_offset")%string in
  match obs_products with
  | Some obs =>
      Py.assert (single_instance_of PlaceSetting obs) ;;;
      match obs with
      | p :: _ =>
          let obs_rel_offset :=
            _recover_rel_offset_from_abs_offset self parent_pose
              p.(node_pose) in
          Ok (obs, pyro_site site_label draw (Some obs_rel_offset))
      | [] => Raise IndexError
      end
  | None =>
      let site := pyro_site site_label draw None in
      let abs_offset := forward_chain self parent_pose site.(site_value) in
      Ok ([mkNode self.(product_type) (self.(name) ++ "_" ++ product_name)
                  abs_offset],
          site)
  end.

End ObjectProductionRule.
End DishBin.

(** ** The feasibility-projection distribution *)

Module ProjectToFeasibilityDist.

(** A tensor: its shape and its entries in row-major order. *)
Record Tensor : Type := mkTensor {
  shape : list nat;
  data : list Q
}.

(** The part of [VectorizedEnvironments] the constructor reads:
    [keep_going] and [classes] are two-dimensional, given by their rows,
    one per batch element; [params_by_class] holds one three-dimensional
    tensor per class, of shape [[batch; objects; parameters]]. *)
Record VectorizedEnvironments : Type := mkEnvs {
  batch_size : nat;
  keep_going : list (list Q);
  classes : list (list Z);
  params_by_class : list Tensor
}.

(** The constructed distribution: one projected parameter row and one
    sensitivity matrix per batch element, the two tensors handed to
    [PassthroughWithGradient]. *)
Record t : Type := mk {
  batch_shape : list nat;
  event_shape : list nat;
  all_params : list (list Q);
  all_params_derivatives : list (list (list Q))
}.

(** [shape[:-1]] *)
Definition init_segment (s : list nat) : list nat := removelast s.

(** [shape[-1:]] *)
Definition last_segment (s : list nat) : list nat :=
  match s with
  | [] => []
  | _ => [last s 0%nat]
  end.

(** [l[k]] with Python's [IndexError]. *)
Definition getitem {A : Type} (l : list A) (k : nat) : outcome A :=
  match nth_error l k with
  | Some a => Ok a
  | None => Raise IndexError
  end.

(** [pre_projection_params[k, :]] of a two-dimensional tensor with rows
    of [m] entries. *)
Definition row (m : nat) (x : Tensor) (k : nat) : list Q :=
  firstn m (skipn (k * m) x.(data)).

(** [torch.eye(n)] *)
Definition eye (n : nat) : list (list Q) :=
  map (fun i => map (fun j => if (i =? j)%nat then 1%Q else 0%Q) (seq 0 n))
      (seq 0 n).

(** [np.all(v != 0.)] *)
Definition all_nonzero (v : list Q) : bool :=
  forallb (fun x => negb (Qeq_bool x 0)) v.

Definition supported_environment (base_environment_type : string) : bool :=
  String.eqb base_environment_type "planar_bin"
  || String.eqb base_environment_type "planar_tabletop".

(** [new_params[:3] = ...] and the three row assignments
    [new_params_derivs[i, :3] = ...]. *)
Definition overwrite_prefix (prefix v : list Q) : list Q :=
  prefix ++ skipn (List.length prefix) v.

Fixpoint overwrite_rows (rows M : list (list Q)) : list (list Q) :=
  match rows, M with
  | r :: rows', v :: M' => overwrite_prefix r v :: overwrite_rows rows' M'
  | _, _ => M
  end.

(** [np.hstack([a, column])] of a two-dimensional array and a column of
    [n] entries [x]: the numbers of rows must agree. *)
Definition hstack_column {A : Type} (a : list (list A)) (n : nat) (x : A)
  : outcome (list (list A)) :=
  if (List.length a =? n)%nat then Ok (map (fun r => r ++ [x]) a)
  else Raise ValueError.

(** The position that [l[i]] reads on a Python list: a negative index
    counts from the end, an index outside the list raises
    [IndexError]. *)
Definition list_position {A : Type} (l : list A) (i : Z) : outcome nat :=
  let len := Z.of_nat (List.length l) in
  if (0 <=? i)%Z && (i <? len)%Z then Ok (Z.to_nat i)
  else if (- len <=? i)%Z && (i <? 0)%Z then Ok (Z.to_nat (i + len))
  else Raise IndexError.

(** [l[k] = x] at a position inside the list. *)
Fixpoint list_set {A : Type} (l : list A) (k : nat) (x : A) : list A :=
  match l, k with
  | [], _ => []
  | _ :: rest, O => x :: rest
  | y :: rest, S k' => y :: list_set rest k' x
  end.

(** [x.reshape(n, 1, -1)]: the last dimension is the size of [x]
    divided by [n]; it cannot be inferred when [n] is zero or does not
    divide the size, and numpy raises [ValueError]. *)
Definition reshape_rows (x : Tensor) (n : nat) : outcome Tensor :=
  let size := List.length x.(data) in
  if (n =? 0)%nat then Raise ValueError
  else if negb (size mod n =? 0)%nat then Raise ValueError
  else Ok (mkTensor [n; 1%nat; (size / n)%nat] x.(data)).

(** Entries [i * size] to [(i + 1) * size] of a flat list. *)
Definition block (size i : nat) (d : list Q) : list Q :=
  firstn size (skipn (i * size) d).

(** [np.concatenate([a, b], axis=1)] for the three-dimensional arrays
    the constructor joins: the first and the last dimension must agree.
    Every other combination of shapes raises [ValueError] (for an [a] of
    fewer than two dimensions numpy's [AxisError], which is a
    [ValueError]). *)
Definition concatenate_axis1 (a b : Tensor) : outcome Tensor :=
  match a.(shape), b.(shape) with
  | [n; k; p], [n'; k'; p'] =>
      if (n =? n')%nat && (p =? p')%nat then
        Ok (mkTensor [n; (k + k')%nat; p]
              (flat_map (fun i => block (k * p) i a.(data)
                                  ++ block (k' * p') i b.(data))
                        (seq 0 n)))
      else Raise ValueError
  | _, _ => Raise ValueError
  end.

Section Constructor.

(** Lines 85 to 92: the scene of batch element [k] is cut out of the
    tentative data and converted to YAML, and
    [BuildMbpAndSgFromYamlEnvironment] builds the plant, the diagram and
    their contexts for the environment type.  These collaborators come
    before the test on the environment type and may raise. *)
Variable BuildMbpAndSgFromYamlEnvironment :
  VectorizedEnvironments -> nat -> string -> outcome unit.

(** The nonlinear projection of batch element [k] with the candidate
    object appended to the scene: the entries [qf[inds]] of the projected
    configuration and the rows [dqf_dq0[ind, inds]] of its sensitivity,
    for the three decision variables of object [object_i]. *)
Variable ProjectMBPToFeasibility :
  VectorizedEnvironments -> Z -> Tensor -> nat -> Z ->
  list Q * list (list Q).

Variables (pre_projection_params : Tensor) (class_i object_i : Z)
          (new_class : list Z) (generated_data : VectorizedEnvironments)
          (base_environment_type : string).

(** Lines 55 to 70: the scenes generated so far with the candidate
    appended, for a batch of [n] elements.  A column of zeros is stacked
    onto [keep_going] and a column of [class_i] onto [classes]; then the
    tensor [params_by_class[class_i]] is read, the candidate parameters
    are reshaped to [[n; 1; -1]] and joined onto it along the object
    axis, and the result is stored back. *)
Definition tentative_generated_data (n : nat)
  : outcome VectorizedEnvironments :=
  tentative_keep_going <-
    hstack_column generated_data.(keep_going) n 0%Q ;;
  tentative_classes <- hstack_column generated_data.(classes) n class_i ;;
  let tentative_params := generated_data.(params_by_class) in
  position <- list_position tentative_params class_i ;;
  so_far <- getitem tentative_params position ;;
  candidate <- reshape_rows pre_projection_params n ;;
  joined <- concatenate_axis1 so_far candidate ;;
  Ok (mkEnvs generated_data.(batch_size) tentative_keep_going
        tentative_classes (list_set tentative_params position joined)).

(** One iteration of the loop over the batch. *)
Definition loop_body (tentative : VectorizedEnvironments) (m : nat) (k : nat)
  : outcome (list Q * list (list Q)) :=
  let new_params := row m pre_projection_params k in
  let new_params_derivs := eye m in
  c <- getitem new_class k ;;
  if (class_i =? c)%Z then
    proceed <-
      (if (object_i =? 0)%Z then Ok true
       else kg <- getitem generated_data.(keep_going) k ;;
            Ok (all_nonzero kg)) ;;
    if (proceed : bool) then
      BuildMbpAndSgFromYamlEnvironment tentative k base_environment_type ;;;
      if supported_environment base_environment_type then
        if (m <? 3)%nat then Raise RuntimeError
        else
          let '(qf, dqf_dq0) :=
            ProjectMBPToFeasibility generated_data class_i
              pre_projection_params k object_i in
          Ok (overwrite_prefix qf new_params,
              overwrite_rows dqf_dq0 new_params_derivs)
      else Raise NotImplementedError
    else Ok (new_params, new_params_derivs)
  else Ok (new_params, new_params_derivs).

Definition __init__ : outcome t :=
  let batch_shape := init_segment pre_projection_params.(shape) in
  let event_shape := last_segment pre_projection_params.(shape) in
  if (1 <? List.length batch_shape)%nat then Raise NotImplementedError
  else
    n <- getitem batch_shape 0 ;;
    tentative <- tentative_generated_data n ;;
    m <- getitem event_shape 0 ;;
    results <- Py.for_each (loop_body tentative m) (seq 0 n) ;;
    Ok (mk batch_shape event_shape (map fst results) (map snd results)).

End Constructor.

End ProjectToFeasibilityDist.

(** ** Parse trees *)

Module ParseTree.

(** Modelled from the spec: the [ParseTree] class is missing from the
    sources, which only call [generate_unconditioned_parse_tree] and
    [get_total_log_prob].  Following sections 3 and 4.4 of the
    specification, a parse tree is the recorded expansion of a root node
    down to terminals: a terminal carries its intrinsic prior, a
    non-terminal the log-probability of its production step and the
    children that step produced. *)
#[local] Unset Elimination Schemes.
Inductive t : Type :=
| Terminal (name : string) (prior : logprob)
| NonTerminal (name : string) (production_score : logprob)
              (children : list t).
#[local] Set Elimination Schemes.

Definition node_name (n : t) : string :=
  match n with
  | Terminal nm _ => nm
  | NonTerminal nm _ _ => nm
  end.




Fixpoint size (tree : t) : nat :=
  match tree with
  | Terminal _ _ => 1
  | NonTerminal _ _ ch => S (list_sum (map size ch))
  end.



End ParseTree.


(** ** Concrete inputs used in the examples below *)

Module Examples.

Import ProjectToFeasibilityDist.

(** A projection that moves every candidate to (7, 7, 7) with zero
    sensitivity. *)
Definition constant_projection :
  VectorizedEnvironments -> Z -> Tensor -> nat -> Z ->
  list Q * list (list Q) :=
  fun _ _ _ _ _ => ([7; 7; 7], [[0; 0; 0]; [0; 0; 0]; [0; 0; 0]])%Q.

(** Three candidates of three parameters each. *)
Definition candidates : Tensor :=
  mkTensor [3; 3]%nat [1; 2; 3; 4; 5; 6; 7; 8; 9]%Q.

(** Collaborators that build a plant for every scene. *)
Definition plant_builds : VectorizedEnvironments -> nat -> string ->
                          outcome unit :=
  fun _ _ _ => Ok tt.

(** One object of class 0 placed so far, in scenes of three classes with
    three parameters each; the third scene has stopped. *)
Definition scenes_so_far : VectorizedEnvironments :=
  mkEnvs 3 [[1]; [1]; [0]]%Q [[0]; [0]; [0]]%Z
    [mkTensor [3; 1; 3]%nat [1; 1; 0; 2; 1; 0; 3; 1; 0]%Q;
     mkTensor [3; 1; 3]%nat (repeat 0%Q 9);
     mkTensor [3; 1; 3]%nat (repeat 0%Q 9)].

(** A tensor with a two-dimensional batch. *)
Definition stacked_candidates : Tensor :=
  mkTensor [2; 2; 3]%nat (repeat 0%Q 12).

Definition origin2 : Pose2 := mkPose2 0 0 0.

Definition origin6 : Pose6 := mkPose6 0 0 0 0 0 0.

(** One unit along x, no rotation. *)
Definition unit_x6 : Pose6 := mkPose6 1 0 0 0 0 0.

(** Pitched straight up (gimbal lock) with a yaw of one radian. *)
Definition pitched_up_yawed : Pose6 := mkPose6 0 0 0 0 (PI / 2) 1.

End Examples.

(** ** Further functions of the grammar modules *)

Section PlanarComposition.
Local Open Scope R_scope.


End PlanarComposition.

(** *** Scoring the products of a rule *)

Section RuleScores.

(** [self.offset_dist.log_prob(rel).sum()]: the log-density of the
    rule's Normal offset distribution, summed over the coordinates. *)
Variable offset_log_prob : Pose2 -> R.

(** [PlaceSetting.ObjectProductionRule.score_products] *)
Definition ObjectProductionRule_score_products
  (self : PlaceSettingNode.ObjectProductionRule.t) (parent_pose : Pose2)
  (products : list (Node Pose2)) : logprob :=
  match products with
  | [p] =>
      if negb (node_class_eqb p.(node_type)
                 self.(PlaceSettingNode.ObjectProductionRule.object_type))
      then NegInf
      else
        let rel_pose :=
          PlaceSettingNode.ObjectProductionRule._recover_rel_pose_from_abs_pose
            self parent_pose p.(node_pose) in
        Finite (offset_log_prob rel_pose)
  | _ => NegInf
  end.

(** [Table.PlaceSettingProductionRule.score_products] *)
Definition PlaceSettingProductionRule_score_products
  (self : Table.PlaceSettingProductionRule.t) (parent_pose : Pose2)
  (products : list (Node Pose2)) : logprob :=
  match products with
  | [p] =>
      if negb (node_class_eqb p.(node_type) PlaceSetting) then NegInf
      else
        let rel_offset :=
          Table.PlaceSettingProductionRule._recover_rel_offset_from_abs_offset
            self parent_pose p.(node_pose) in
        Finite (offset_log_prob rel_offset)
  | _ => NegInf
  end.

End RuleScores.

(** *** Sampling the rules of a set node *)

(** [(selected_rules >> k) & 1] as a truth value. *)
Definition bit_set (selected_rules k : nat) : bool :=
  negb (Nat.land (Nat.shiftr selected_rules k) 1 =? 0)%nat.

(** The selection loop of [CovaryingSetNode.sample_production_rules]:
    [enumerate(self.production_rules)] from position [k] on. *)
Fixpoint select_by_bits (k : nat) (production_rules : list rule)
  (selected_rules : nat) : list rule :=
  match production_rules with
  | [] => []
  | r :: rest =>
      if bit_set selected_rules k
      then r :: select_by_bits (S k) rest selected_rules
      else select_by_bits (S k) rest selected_rules
  end.

(** The selection loop of [IndependentSetNode.sample_production_rules]:
    [selected_rules[k] == 1] for every rule; an index past the end of
    the selection raises [IndexError]. *)
Fixpoint select_by_flags (production_rules : list rule)
  (selected_rules : list bool) : outcome (list rule) :=
  match production_rules, selected_rules with
  | [], _ => Ok []
  | _ :: _, [] => Raise IndexError
  | r :: rest, b :: flags =>
      out <- select_by_flags rest flags ;;
      Ok (if (b : bool) then r :: out else out)
  end.

(** The part of [selected_rules] carried by the bits [k], ..,
    [k + count - 1]: what the recovery loop adds up for the rules the
    selection loop picked from those positions. *)
Fixpoint bits_value (selected_rules k count : nat) : nat :=
  match count with
  | O => 0
  | S count' =>
      (if bit_set selected_rules k then 2 ^ k else 0)
      + bits_value selected_rules (S k) count'
  end.

Section SetNodeSampling.

(** What the sample statement and the selection loop do with the -inf
    tensor that [_recover_selected_rules] hands back for a foreign rule:
    the library's behaviour, left open. *)
Variable on_neg_inf : outcome (list rule).

(** [CovaryingSetNode.sample_production_rules]; [draw] is the
    combination index the sampler draws when nothing is observed. *)
Definition CovaryingSetNode_sample_production_rules
  (self : CovaryingSetNode.t) (draw : nat)
  (obs_production_rules : option (list rule)) : outcome (list rule) :=
  selected_rules <-
    match obs_production_rules with
    | Some obs =>
        s <- CovaryingSetNode._recover_selected_rules self obs ;; Ok (Some s)
    | None => Ok None
    end ;;
  match pyro_sample (Selection draw) selected_rules with
  | NegInfTensor => on_neg_inf
  | Selection s =>
      Ok (select_by_bits 0 self.(CovaryingSetNode.production_rules) s)
  end.

(** [IndependentSetNode.sample_production_rules]; [draw] is the 0/1
    tensor the sampler draws when nothing is observed. *)
Definition IndependentSetNode_sample_production_rules
  (self : IndependentSetNode.t) (draw : list bool)
  (obs_production_rules : option (list rule)) : outcome (list rule) :=
  selected_rules <-
    match obs_production_rules with
    | Some obs =>
        s <- IndependentSetNode._recover_selected_rules self obs ;;
        Ok (Some s)
    | None => Ok None
    end ;;
  match pyro_sample (Selection draw) selected_rules with
  | NegInfTensor => on_neg_inf
  | Selection s =>
      select_by_flags self.(IndependentSetNode.production_rules) s
  end.

End SetNodeSampling.

(** *** Formatting and the construction of a table *)

(** [count] characters "0" in front of [s]. *)
Fixpoint zero_fill (count : nat) (s : string) : string :=
  match count with
  | O => s
  | S count' => String "0" (zero_fill count' s)
  end.

(** ["%0<width>d" % k] for a non-negative integer [k]: the decimal
    digits of [k], filled with zeros on the left up to [width]
    characters; longer numbers are not cut. *)
Definition format_d (width : nat) (k : nat) : string :=
  let digits := NilEmpty.string_of_uint (Nat.to_uint k) in
  zero_fill (width - String.length digits) digits.

Module TableNode.

(** A table: the IndependentSet node over the identities of its rules,
    its pose, its radius and the rule objects themselves, the [k]-th of
    which has identity [k]. *)
Record t : Type := mk {
  node : IndependentSetNode.t;
  pose : Pose2;
  table_radius : R;
  rules : list Table.PlaceSettingProductionRule.t
}.

Section Construction.
Local Open Scope R_scope.

(** The body of the loop over [range(num_place_setting_locations)]. *)
Definition place_setting_rule (name : string)
  (num_place_setting_locations : nat) (table_radius : R) (k : nat)
  : Table.PlaceSettingProductionRule.t :=
  let r := INR k / INR num_place_setting_locations * PI * 2 in
  Table.PlaceSettingProductionRule.mk
    (name ++ "_prod_" ++ format_d 3 k)
    (mkPose2 (table_radius * cos r) (table_radius * sin r) r).

(** [Table.__init__(name, num_place_setting_locations)];
    [table_radius] is the value of the parameter "<name>_radius". *)
Definition __init__ (name : string) (num_place_setting_locations : nat)
  (table_radius : R) : outcome t :=
  let production_rules :=
    map (place_setting_rule name num_place_setting_locations table_radius)
        (seq 0 num_place_setting_locations) in
  base <- IndependentSetNode.__init__ name
            (seq 0 (List.length production_rules))
            (repeat (1 # 2)%Q num_place_setting_locations) ;;
  Ok (mk base (mkPose2 (1 / 2) (1 / 2) 0) table_radius production_rules).

End Construction.

End TableNode.

(** *** Scene records *)

Module Yaml.

(** The dictionary [generate_yaml] returns; [color] is always [None]
    and is left out. *)
Record object_yaml : Type := mkObject {
  class : string;
  img_path : string;
  params : list Q;
  params_names : list string;
  pose : Pose2
}.

(** A value stored in an environment dictionary. *)
Inductive value : Type :=
| Int (n : nat)
| Obj (o : object_yaml).

(** A dictionary with string keys, in insertion order. *)
Definition dict : Type := list (string * value).

(** [d[key]], [None] standing for [KeyError]. *)
Fixpoint get (d : dict) (key : string) : option value :=
  match d with
  | [] => None
  | (k, v) :: rest => if String.eqb k key then Some v else get rest key
  end.

(** [d[key] = v]: an existing key keeps its place and takes the new
    value, a new key is appended. *)
Fixpoint set (d : dict) (key : string) (v : value) : dict :=
  match d with
  | [] => [(key, v)]
  | (k, v') :: rest =>
      if String.eqb k key then (k, v) :: rest
      else (k, v') :: set rest key v
  end.

(** The terminal classes of [probabilistic_scene_grammar_model.py]. *)
Inductive terminal_class : Set :=
| TPlate | TCup | TFork | TKnife | TSpoon.

Record terminal : Type := mkTerminal {
  terminal_type : terminal_class;
  terminal_pose : Pose2
}.

(** [node.generate_yaml()] of the five terminal classes. *)
Definition generate_yaml (node : terminal) : object_yaml :=
  match node.(terminal_type) with
  | TPlate =>
      mkObject "plate" "table_setting_assets/plate_red.png"
               [2 # 10]%Q ["radius"%string] node.(terminal_pose)
  | TCup =>
      mkObject "cup" "table_setting_assets/cup_water.png"
               [5 # 100]%Q ["radius"%string] node.(terminal_pose)
  | TFork =>
      mkObject "fork" "table_setting_assets/fork.png"
               [2 # 100; 14 # 100]%Q ["width"%string; "height"%string]
               node.(terminal_pose)
  | TKnife =>
      mkObject "knife" "table_setting_assets/knife.png"
               [15 # 1000; 15 # 100]%Q ["width"%string; "height"%string]
               node.(terminal_pose)
  | TSpoon =>
      mkObject "spoon" "table_setting_assets/spoon.png"
               [2 # 100; 12 # 100]%Q ["width"%string; "height"%string]
               node.(terminal_pose)
  end.

(** ["obj_%04d" % k] *)
Definition object_key (k : nat) : string := "obj_" ++ format_d 4 k.

(** The loop of [convert_list_of_terminal_nodes_to_yaml_env] from
    position [k] on. *)
Fixpoint add_objects (env : dict) (k : nat) (node_list : list terminal)
  : dict :=
  match node_list with
  | [] => env
  | node :: rest =>
      add_objects (set env (object_key k) (Obj (generate_yaml node)))
                  (S k) rest
  end.

(** [convert_list_of_terminal_nodes_to_yaml_env(node_list)] *)
Definition convert_list_of_terminal_nodes_to_yaml_env
  (node_list : list terminal) : dict :=
  let env := [("n_objects"%string, Int (List.length node_list))] in
  add_objects env 0 node_list.

(** The entries the conversion loop appends for [node_list], numbered
    from [k]: the closed form of [add_objects] used in the proofs. *)
Fixpoint entries (k : nat) (node_list : list terminal) : dict :=
  match node_list with
  | [] => []
  | node :: rest =>
      (object_key k, Obj (generate_yaml node)) :: entries (S k) rest
  end.

Section Rotation.
Local Open Scope R_scope.

(** [np.mod(x, m)] for a positive [m]: [x - floor(x / m) * m]. *)
Definition np_mod (x m : R) : R := x - IZR (Int_part (x / m)) * m.

(** The update of one object's pose in [rotate_yaml_env]. *)
Definition rotate_pose (init_pose : Pose2) (r : R) : Pose2 :=
  let theta := np_mod (p2_theta init_pose + r) (PI * 2) in
  let dx := p2_x init_pose - 1 / 2 in
  let dy := p2_y init_pose - 1 / 2 in
  mkPose2 (cos r * dx + - sin r * dy + 1 / 2)
          (sin r * dx + cos r * dy + 1 / 2)
          theta.

(** The terminal node whose yaml the pose update produces. *)
Definition rotate_terminal (r : R) (node : terminal) : terminal :=
  mkTerminal node.(terminal_type) (rotate_pose node.(terminal_pose) r).

(** What [rotate_yaml_env] can raise. *)
Inductive error : Set := KeyError | TypeError.

(** The loop of [rotate_yaml_env] over [range(env["n_objects"])], from
    object [obj_k] on, [count] objects to go. *)
Fixpoint rotate_objects (env : dict) (r : R) (obj_k count : nat)
  : error + dict :=
  match count with
  | O => inr env
  | S count' =>
      let key := object_key obj_k in
      match get env key with
      | None => inl KeyError
      | Some (Int _) => inl TypeError
      | Some (Obj obj_yaml) =>
          let rotated :=
            mkObject obj_yaml.(class) obj_yaml.(img_path) obj_yaml.(params)
                     obj_yaml.(params_names)
                     (rotate_pose obj_yaml.(pose) r) in
          rotate_objects (set env key (Obj rotated)) r (S obj_k) count'
      end
  end.

(** [rotate_yaml_env(env, r)] of [probabilistic_scene_grammar_fitting.py];
    the dictionary is updated in place and is returned here. *)
Definition rotate_yaml_env (env : dict) (r : R) : error + dict :=
  match get env "n_objects" with
  | None => inl KeyError
  | Some (Obj _) => inl TypeError
  | Some (Int n_objects) => rotate_objects env r 0 n_objects
  end.

End Rotation.

End Yaml.

(** * Properties *)

(** ** Python lists of rules *)

Lemma list_eqb_refl (l : list rule) : Py.list_eqb l l = true.
Proof.
  induction l as [|a l IH]; simpl; [reflexivity|].
  now rewrite Nat.eqb_refl, IH.
Qed.

Lemma contains_false_index (r : rule) (l : list rule) :
  Py.contains r l = false -> Py.index r l = Raise ValueError.
Proof.
  unfold Py.contains.
  induction l as [|y l IH]; simpl; intros H; [reflexivity|].
  apply orb_false_elim in H as [Hy Hl].
  rewrite Nat.eqb_sym, Hy. now rewrite (IH Hl).
Qed.

Lemma contains_true_index (r : rule) (l : list rule) :
  Py.contains r l = true -> exists k, Py.index r l = Ok k /\ (k < List.length l)%nat.
Proof.
  unfold Py.contains.
  induction l as [|y l IH]; simpl; intros H; [discriminate|].
  rewrite (Nat.eqb_sym y r).
  destruct (Nat.eqb r y) eqn:E; simpl in *.
  - exists 0%nat. split; [reflexivity|lia].
  - destruct (IH H) as (k & -> & Hk). exists (S k). split; [reflexivity|lia].
Qed.

(** ** And nodes *)

(** C1 (the code departs from the claim).  Scoring an And node on its
    own full production-rule list, the one selection the node can
    produce, returns -inf and not the finite log 1 = 0: both branches of
    [AndNode.score_production_rules] return -inf. *)
Theorem and_node_scores_own_rules_neg_inf :
  forall self : AndNode.t,
    AndNode.score_production_rules self self.(AndNode.production_rules) = NegInf
    /\ AndNode.sample_production_rules self (Some self.(AndNode.production_rules))
       = Ok self.(AndNode.production_rules)
    /\ NegInf <> Finite 0.
Proof.
  intros self. repeat split.
  - unfold AndNode.score_production_rules.
    now destruct (negb _).
  - unfold AndNode.sample_production_rules.
    now rewrite list_eqb_refl.
  - discriminate.
Qed.

(** ** Construction with no production rule *)

(** C7, counterexample: with its default hints and remaining weight, a
    CovaryingSetNode over the empty rule list is constructed, no error is
    raised. *)
Lemma covarying_set_empty_rules_constructs :
  exists node : CovaryingSetNode.t,
    CovaryingSetNode.__init__ "node" [] [] 1 = Ok node
    /\ node.(CovaryingSetNode.production_rules) = [].
Proof. eexists. split; reflexivity. Qed.

(** The hint loop raises [AssertionError] or [IndexError] only. *)
Lemma setitem_raises_index_error (w : list Q) (i : nat) (val : Q) (e : exn) :
  CovaryingSetNode.setitem w i val = Raise e -> e = IndexError.
Proof.
  revert i. induction w as [|x w IH]; intros i H; simpl in H.
  - now injection H as <-.
  - destruct i as [|i]; [discriminate|].
    destruct (CovaryingSetNode.setitem w i val) eqn:E; simpl in H;
      [discriminate|].
    injection H as <-. eapply IH, E.
Qed.

Lemma combination_index_raises_assertion (n : nat) (hint : list Z)
  (acc : nat) (e : exn) :
  CovaryingSetNode.combination_index n hint acc = Raise e ->
  e = AssertionError.
Proof.
  revert acc. induction hint as [|i hint IH]; intros acc H; simpl in H.
  - discriminate.
  - unfold Py.assert in H.
    destruct ((0 <=? i)%Z && (i <? Z.of_nat n)%Z); simpl in H.
    + eapply IH, H.
    + now injection H as <-.
Qed.

Lemma apply_hints_never_value_error (n : nat) (hints : list (list Z * Q))
  (w : list Q) :
  CovaryingSetNode.apply_hints n hints w <> Raise ValueError.
Proof.
  revert w. induction hints as [|[hint val] hints IH]; intros w; simpl.
  - discriminate.
  - unfold Py.assert. destruct (Qle_bool 0 val); simpl; [|discriminate].
    destruct (CovaryingSetNode.combination_index n hint 0) as [ci|e] eqn:Ec;
      simpl.
    + destruct (CovaryingSetNode.setitem w ci val) as [w'|e] eqn:Es; simpl.
      * apply IH.
      * apply setitem_raises_index_error in Es. subst e. discriminate.
    + apply combination_index_raises_assertion in Ec. subst e. discriminate.
Qed.

(** C7, as amended.  An OrNode and an AndNode over the empty rule list
    raise [ValueError] whatever the other arguments are; the
    CovaryingSetNode constructor has no check on the number of rules:
    with its default hints and remaining weight it builds a node over
    the empty rule list. *)
Theorem empty_rule_list_construction :
  forall (name : string) (production_weights : list Q),
    OrNode.__init__ name [] production_weights = Raise ValueError
    /\ AndNode.__init__ name [] = Raise ValueError
    /\ exists node : CovaryingSetNode.t,
         CovaryingSetNode.__init__ name [] [] 1 = Ok node
         /\ node.(CovaryingSetNode.production_rules) = [].
Proof.
  intros name w. split; [|split].
  - unfold OrNode.__init__. destruct w; reflexivity.
  - reflexivity.
  - eexists. split; reflexivity.
Qed.

(** ** Rules that are not the node's own *)

Lemma or_score_foreign_rule_raises (self : OrNode.t) (r : rule) :
  Py.contains r self.(OrNode.production_rules) = false ->
  OrNode.score_production_rules self [r] = Raise ValueError.
Proof.
  intros H. unfold OrNode.score_production_rules. simpl.
  now rewrite (contains_false_index _ _ H).
Qed.

Lemma or_sample_foreign_rule_raises (self : OrNode.t) (r : rule)
  (rest : list rule) (draw : nat) :
  Py.contains r self.(OrNode.production_rules) = false ->
  OrNode.sample_production_rules self draw (Some (r :: rest))
  = Raise ValueError.
Proof.
  intros H. unfold OrNode.sample_production_rules. simpl.
  now rewrite (contains_false_index _ _ H).
Qed.

(** The two set nodes do detect a foreign rule: their recovery loops
    stop at the first rule that is not the node's and hand back the -inf
    tensor. *)
Lemma covarying_recover_foreign_rule (own rules : list rule) (acc : nat) :
  existsb (fun r => negb (Py.contains r own)) rules = true ->
  CovaryingSetNode.recover_loop own rules acc = Ok NegInfTensor.
Proof.
  revert acc. induction rules as [|r rules IH]; intros acc H; simpl in *.
  - discriminate.
  - destruct (Py.contains r own) eqn:E; simpl in *; [|reflexivity].
    destruct (contains_true_index _ _ E) as (k & -> & _). simpl.
    now apply IH.
Qed.

Lemma independent_recover_foreign_rule (own rules : list rule)
  (sel : list bool) :
  existsb (fun r => negb (Py.contains r own)) rules = true ->
  IndependentSetNode.recover_loop own rules sel = Ok NegInfTensor.
Proof.
  revert sel. induction rules as [|r rules IH]; intros sel H; simpl in *.
  - discriminate.
  - destruct (Py.contains r own) eqn:E; simpl in *; [|reflexivity].
    destruct (contains_true_index _ _ E) as (k & -> & _). simpl.
    now apply IH.
Qed.

(** C6 (the code departs from the claim).  An OrNode built over the
    rules 0 and 1, asked to score the single rule 7 that is not among
    them, raises [ValueError]: [_recover_active_rule] prints its warning
    and goes on to [list.index].  It returns no score of -inf, and
    observed-mode sampling raises the same [ValueError], not an
    assertion failure. *)
Theorem or_node_foreign_rule_raises_value_error :
  exists node : OrNode.t,
    OrNode.__init__ "or" [0; 1]%nat [1; 1]%Q = Ok node
    /\ Py.contains 7%nat node.(OrNode.production_rules) = false
    /\ OrNode.score_production_rules node [7%nat] = Raise ValueError
    /\ (forall draw,
          OrNode.sample_production_rules node draw (Some [7%nat])
          = Raise ValueError).
Proof.
  eexists. split; [reflexivity|]. split; [reflexivity|]. split.
  - now apply or_score_foreign_rule_raises.
  - intros draw. now apply or_sample_foreign_rule_raises.
Qed.

(** ** The CovaryingSet weight tensor *)

Lemma setitem_length (w w' : list Q) (i : nat) (val : Q) :
  CovaryingSetNode.setitem w i val = Ok w' -> List.length w' = List.length w.
Proof.
  revert i w'. induction w as [|x w IH]; intros i w' H; simpl in H.
  - discriminate.
  - destruct i as [|i].
    + now injection H as <-.
    + destruct (CovaryingSetNode.setitem w i val) as [r|] eqn:E;
        simpl in H; [|discriminate].
      injection H as <-. simpl. f_equal. eapply IH, E.
Qed.

Lemma apply_hints_length (n : nat) (hints : list (list Z * Q))
  (w w' : list Q) :
  CovaryingSetNode.apply_hints n hints w = Ok w' ->
  List.length w' = List.length w.
Proof.
  revert w. induction hints as [|[hint val] hints IH]; intros w H;
    simpl in H.
  - now injection H as <-.
  - unfold Py.assert in H.
    destruct (Qle_bool 0 val); simpl in H; [|discriminate].
    destruct (CovaryingSetNode.combination_index n hint 0) as [ci|];
      simpl in H; [|discriminate].
    destruct (CovaryingSetNode.setitem w ci val) as [w1|] eqn:E;
      simpl in H; [|discriminate].
    rewrite (IH _ H). eapply setitem_length, E.
Qed.

(** Whenever the constructor returns, the weight tensor has one entry
    more than there are subsets of the rules. *)
Lemma covarying_set_weights_length (name : string) (rules : list rule)
  (hints : list (list Z * Q)) (remaining_weight : Q)
  (node : CovaryingSetNode.t) :
  CovaryingSetNode.__init__ name rules hints remaining_weight = Ok node ->
  List.length node.(CovaryingSetNode.exhaustive_set_weights)
  = (2 ^ List.length rules + 1)%nat.
Proof.
  unfold CovaryingSetNode.__init__, Py.assert.
  destruct (Qle_bool 0 remaining_weight); cbn [Py.bind]; [|discriminate].
  cbv zeta.
  destruct (CovaryingSetNode.apply_hints _ hints _) as [w'|] eqn:E;
    cbn [Py.bind]; [|discriminate].
  destruct (CovaryingSetNode.Categorical_logits _); cbn [Py.bind];
    [|discriminate].
  intros H. injection H as <-. cbn [CovaryingSetNode.exhaustive_set_weights].
  unfold CovaryingSetNode.normalize. rewrite length_map.
  rewrite (apply_hints_length _ _ _ E). apply repeat_length.
Qed.

(** The distribution is built only over weights whose sum is not
    zero. *)
Lemma categorical_logits_normalize (w : list Q) :
  CovaryingSetNode.Categorical_logits (CovaryingSetNode.normalize w) = Ok tt ->
  Qeq_bool (Qsum w) 0 = false.
Proof.
  unfold CovaryingSetNode.Categorical_logits, CovaryingSetNode.normalize.
  destruct (Qeq_bool (Qsum w) 0); [|reflexivity].
  replace (existsb _ (map (fun _ : Q => None) w)) with false.
  - rewrite andb_false_r. discriminate.
  - induction w as [|x w IH]; simpl; [reflexivity|exact IH].
Qed.

(** What a returning constructor went through. *)
Lemma covarying_set_constructed (name : string) (rules : list rule)
  (hints : list (list Z * Q)) (remaining_weight : Q)
  (node : CovaryingSetNode.t) :
  CovaryingSetNode.__init__ name rules hints remaining_weight = Ok node ->
  exists w : list Q,
    (0 <= remaining_weight)%Q
    /\ CovaryingSetNode.apply_hints (List.length rules) hints
         (repeat remaining_weight (2 ^ List.length rules + 1)) = Ok w
    /\ Qeq_bool (Qsum w) 0 = false
    /\ node = CovaryingSetNode.mk name (CovaryingSetNode.normalize w) rules.
Proof.
  unfold CovaryingSetNode.__init__, Py.assert.
  destruct (Qle_bool 0 remaining_weight) eqn:Erw; cbn [Py.bind];
    [|discriminate].
  cbv zeta.
  destruct (CovaryingSetNode.apply_hints _ hints _) as [w|] eqn:E;
    cbn [Py.bind]; [|discriminate].
  destruct (CovaryingSetNode.Categorical_logits _) as [[]|] eqn:Ec;
    cbn [Py.bind]; [|discriminate].
  intros H. injection H as <-. exists w.
  split; [now apply Qle_bool_iff|]. split; [reflexivity|].
  split; [now apply categorical_logits_normalize|reflexivity].
Qed.

(** Dividing by a sum that is not zero yields weights that sum to 1. *)
Lemma Qsum_scaled (w : list Q) (s : Q) :
  (Qsum (map (fun x => x / s) w) == Qsum w / s)%Q.
Proof.
  induction w as [|x w IH]; simpl.
  - unfold Qdiv. now rewrite Qmult_0_l.
  - rewrite IH. unfold Qdiv. now rewrite Qmult_plus_distr_l.
Qed.

Lemma normalize_sums_to_one (w : list Q) :
  ~ (Qsum w == 0)%Q ->
  exists probs : list Q,
    CovaryingSetNode.normalize w = map Some probs
    /\ (Qsum probs == 1)%Q.
Proof.
  intros Hs. exists (map (fun x => x / Qsum w)%Q w). split.
  - unfold CovaryingSetNode.normalize. rewrite map_map.
    apply map_ext. intros x.
    destruct (Qeq_bool (Qsum w) 0) eqn:E; [|reflexivity].
    apply Qeq_bool_iff in E. contradiction.
  - rewrite Qsum_scaled. unfold Qdiv. now apply Qmult_inv_r.
Qed.

(** C2 (the code departs from the claim).  For a single production rule,
    no hints and remaining weight 1, the constructor builds three
    weights of 1/3 each, not a distribution over the 2^1 = 2 subsets:
    [num_combinations] is [2**n + 1].  The two entries that stand for
    the subsets sum to 2/3. *)
Theorem covarying_set_builds_extra_combination :
  exists (node : CovaryingSetNode.t) (probs : list Q),
    CovaryingSetNode.__init__ "node" [0%nat] [] 1 = Ok node
    /\ node.(CovaryingSetNode.exhaustive_set_weights) = map Some probs
    /\ probs = [1 # 3; 1 # 3; 1 # 3]
    /\ List.length probs
       <> (2 ^ List.length node.(CovaryingSetNode.production_rules))%nat
    /\ (Qsum (firstn
                (2 ^ List.length node.(CovaryingSetNode.production_rules))
                probs) == 2 # 3)%Q.
Proof.
  eexists. exists [1 # 3; 1 # 3; 1 # 3].
  split; [reflexivity|]. split; [reflexivity|]. split; [reflexivity|].
  split.
  - simpl. lia.
  - reflexivity.
Qed.

(** ** The feasibility-projection constructor *)

Section ProjectionProperties.

Import ProjectToFeasibilityDist.

Variable build : VectorizedEnvironments -> nat -> string -> outcome unit.

Variable oracle :
  VectorizedEnvironments -> Z -> Tensor -> nat -> Z -> list Q * list (list Q).

Lemma for_each_nth_error {A B : Type} (body : A -> outcome B) (l : list A)
  (r : list B) (i : nat) (a : A) :
  Py.for_each body l = Ok r ->
  nth_error l i = Some a ->
  exists b, body a = Ok b /\ nth_error r i = Some b.
Proof.
  revert r i. induction l as [|x l IH]; intros r i Hr Hi.
  - destruct i; discriminate.
  - simpl in Hr.
    destruct (body x) as [b|] eqn:Eb; simpl in Hr; [|discriminate].
    destruct (Py.for_each body l) as [bs|] eqn:Ebs; simpl in Hr;
      [|discriminate].
    injection Hr as <-.
    destruct i as [|i]; simpl in Hi.
    + injection Hi as <-. exists b. now split.
    + destruct (IH bs i eq_refl Hi) as (b' & Hb' & Hn).
      exists b'. now split.
Qed.

Lemma all_nonzero_false (v : list Q) :
  (exists x, In x v /\ (x == 0)%Q) -> all_nonzero v = false.
Proof.
  intros (x & Hin & Hx). unfold all_nonzero.
  destruct (forallb _ v) eqn:E; [|reflexivity].
  rewrite forallb_forall in E. specialize (E x Hin).
  apply Qeq_bool_iff in Hx. now rewrite Hx in E.
Qed.

(** The loop body leaves the input row and the identity in place when
    the classes differ or an earlier keep-going flag is zero. *)
Lemma loop_body_short_circuit (pre : Tensor) (class_i object_i : Z)
  (new_class : list Z) (generated_data : VectorizedEnvironments)
  (env : string) (tentative : VectorizedEnvironments) (m k : nat) (c : Z)
  (res : list Q * list (list Q)) :
  loop_body build oracle pre class_i object_i new_class generated_data env
    tentative m k
  = Ok res ->
  nth_error new_class k = Some c ->
  (class_i <> c
   \/ ((0 < object_i)%Z
       /\ exists kg, nth_error generated_data.(keep_going) k = Some kg
                     /\ exists x, In x kg /\ (x == 0)%Q)) ->
  res = (row m pre k, eye m).
Proof.
  intros Hres Hc Hskip. unfold loop_body, getitem in Hres.
  rewrite Hc in Hres. cbn [Py.bind] in Hres.
  destruct Hskip as [Hne | (Hpos & kg & Hkg & Hzero)].
  - apply Z.eqb_neq in Hne. rewrite Hne in Hres. now injection Hres as <-.
  - destruct (class_i =? c)%Z; [|now injection Hres as <-].
    replace (object_i =? 0)%Z with false in Hres
      by (symmetry; apply Z.eqb_neq; lia).
    rewrite Hkg in Hres. cbn [Py.bind] in Hres.
    rewrite (all_nonzero_false _ Hzero) in Hres.
    now injection Hres as <-.
Qed.

(** A constructor that returns on a batch of [n] rows of [m] parameters
    has assembled the tentative scenes and run the loop over the whole
    batch. *)
Lemma init_returns (pre : Tensor) (class_i object_i : Z)
  (new_class : list Z) (generated_data : VectorizedEnvironments)
  (env : string) (d : ProjectToFeasibilityDist.t) (n m : nat) :
  pre.(shape) = [n; m] ->
  ProjectToFeasibilityDist.__init__ build oracle pre class_i object_i
    new_class generated_data env = Ok d ->
  exists (tentative : VectorizedEnvironments)
         (results : list (list Q * list (list Q))),
    tentative_generated_data pre class_i generated_data n = Ok tentative
    /\ Py.for_each
         (loop_body build oracle pre class_i object_i new_class
            generated_data env tentative m) (seq 0 n) = Ok results
    /\ d = ProjectToFeasibilityDist.mk [n] [m] (map fst results)
             (map snd results).
Proof.
  intros Hshape Hinit.
  unfold ProjectToFeasibilityDist.__init__ in Hinit.
  rewrite Hshape in Hinit. cbn [init_segment removelast last_segment last
    List.length Nat.ltb Nat.leb getitem nth_error Py.bind] in Hinit.
  destruct (tentative_generated_data pre class_i generated_data n)
    as [tentative|] eqn:Et; cbn [Py.bind] in Hinit; [|discriminate].
  destruct (Py.for_each _ (seq 0 n)) as [results|] eqn:Eloop;
    cbn [Py.bind] in Hinit; [|discriminate].
  injection Hinit as <-. exists tentative, results. now repeat split.
Qed.

(** C8.  For a batch of [n] rows of [m] parameters, whenever the
    constructor returns a distribution, every batch element [k] whose
    class [new_class[k]] differs from [class_i], or whose keep-going row
    holds a zero while [object_i > 0], keeps its unprojected input row
    and the identity as sensitivity matrix. *)
Theorem projection_short_circuit :
  forall (pre : Tensor) (class_i object_i : Z) (new_class : list Z)
         (generated_data : VectorizedEnvironments) (env : string)
         (d : ProjectToFeasibilityDist.t) (n m k : nat) (c : Z),
    pre.(shape) = [n; m] ->
    ProjectToFeasibilityDist.__init__ build oracle pre class_i object_i
      new_class generated_data env = Ok d ->
    (k < n)%nat ->
    nth_error new_class k = Some c ->
    (class_i <> c
     \/ ((0 < object_i)%Z
         /\ exists kg, nth_error generated_data.(keep_going) k = Some kg
                       /\ exists x, In x kg /\ (x == 0)%Q)) ->
    nth_error d.(all_params) k = Some (row m pre k)
    /\ nth_error d.(all_params_derivatives) k = Some (eye m).
Proof.
  intros pre class_i object_i new_class gd env d n m k c Hshape Hinit Hk Hc
         Hskip.
  destruct (@init_returns pre class_i object_i new_class gd env d n m
              Hshape Hinit) as (tentative & results & _ & Eloop & ->).
  cbn [all_params all_params_derivatives].
  assert (Hnth : nth_error (seq 0 n) k = Some k).
  { rewrite nth_error_nth' with (d := 0%nat) by now rewrite length_seq.
    now rewrite seq_nth. }
  destruct (for_each_nth_error _ _ _ Eloop Hnth) as (res & Hbody & Hres).
  assert (res = (row m pre k, eye m)) as ->
    by (eapply loop_body_short_circuit; eassumption).
  rewrite !nth_error_map, Hres. now split.
Qed.

(** C10.  A tensor whose batch shape (all dimensions but the last) has
    more than one dimension is rejected with [NotImplementedError],
    whatever the other arguments are. *)
Theorem multidimensional_batch_rejected :
  forall (pre : Tensor) (class_i object_i : Z) (new_class : list Z)
         (generated_data : VectorizedEnvironments) (env : string),
    (1 < List.length (init_segment pre.(shape)))%nat ->
    ProjectToFeasibilityDist.__init__ build oracle pre class_i object_i
      new_class generated_data env = Raise NotImplementedError.
Proof.
  intros pre class_i object_i new_class gd env H.
  unfold ProjectToFeasibilityDist.__init__.
  apply Nat.ltb_lt in H. now rewrite H.
Qed.

End ProjectionProperties.

Lemma projection_short_circuit_witness :
  let d := ProjectToFeasibilityDist.mk [3%nat] [3%nat]
             [[7; 7; 7]; [4; 5; 6]; [7; 8; 9]]%Q
             [[[0; 0; 0]; [0; 0; 0]; [0; 0; 0]];
              ProjectToFeasibilityDist.eye 3;
              ProjectToFeasibilityDist.eye 3]%Q in
  ProjectToFeasibilityDist.__init__ Examples.plant_builds
    Examples.constant_projection Examples.candidates 0 1 [0; 1; 0]%Z
    Examples.scenes_so_far "planar_bin"
  = Ok d
  /\ nth_error d.(ProjectToFeasibilityDist.all_params) 2
     = Some [7; 8; 9]%Q
  /\ nth_error d.(ProjectToFeasibilityDist.all_params_derivatives) 2
     = Some (ProjectToFeasibilityDist.eye 3).
Proof.
  intros d. split; [reflexivity|].
  apply (@projection_short_circuit Examples.plant_builds
           Examples.constant_projection Examples.candidates 0 1 [0; 1; 0]%Z
           Examples.scenes_so_far "planar_bin" d 3 3 2 0%Z).
  - reflexivity.
  - reflexivity.
  - lia.
  - reflexivity.
  - right. split; [lia|].
    exists [0%Q]. split; [reflexivity|].
    exists 0%Q. split; [now left|reflexivity].
Defined.

Lemma multidimensional_batch_rejected_witness :
  (1 < List.length (ProjectToFeasibilityDist.init_segment
                      (ProjectToFeasibilityDist.shape
                         Examples.stacked_candidates)))%nat
  /\ ProjectToFeasibilityDist.__init__ Examples.plant_builds
       Examples.constant_projection Examples.stacked_candidates 0 0
       [0; 0]%Z Examples.scenes_so_far "planar_bin"
     = Raise NotImplementedError.
Proof.
  split.
  - simpl. lia.
  - apply multidimensional_batch_rejected. simpl. lia.
Defined.

(** ** Planar poses and the rules that chain them *)

Section PlanarProperties.
Local Open Scope R_scope.

(** Names [sin r] and [cos r] as variables tied by
    [sin r * sin r + cos r * cos r = 1]. *)
Ltac trig_vars r :=
  let H := fresh "Hsc" in
  pose proof (sin2_cos2 r) as H; unfold Rsqr in H;
  generalize dependent (cos r); generalize dependent (sin r); intros.

Lemma chain_invert_chain (p q : Pose2) :
  chain_pose_transforms (invert_pose p) (chain_pose_transforms p q) = q.
Proof.
  destruct p as [px py r], q as [qx qy t].
  unfold chain_pose_transforms, invert_pose; cbn [p2_x p2_y p2_theta].
  rewrite cos_neg, sin_neg. trig_vars r.
  f_equal; nsatz.
Qed.

Lemma chain_chain_invert (p a : Pose2) :
  chain_pose_transforms p (chain_pose_transforms (invert_pose p) a) = a.
Proof.
  destruct p as [px py r], a as [ax ay t].
  unfold chain_pose_transforms, invert_pose; cbn [p2_x p2_y p2_theta].
  rewrite cos_neg, sin_neg. trig_vars r.
  f_equal; nsatz.
Qed.

Lemma node_class_eqb_refl (c : node_class) : node_class_eqb c c = true.
Proof. now destruct c. Qed.

(** The object rule of a place setting does what the sampling contract
    asks: given one observed child of its type, the sample site is
    observed at the recovered relative pose and the child comes back at
    the observed pose, whatever the sampler would have drawn. *)
Lemma object_rule_reproduces_observation
  (self : PlaceSettingNode.ObjectProductionRule.t) (parent_pose : Pose2)
  (p : Node Pose2) (draw : Pose2) :
  node_type p = PlaceSettingNode.ObjectProductionRule.object_type self ->
  exists child site,
    PlaceSettingNode.ObjectProductionRule.__call__ self parent_pose
      (Some [p]) draw = Ok ([child], site)
    /\ node_pose child = node_pose p
    /\ site_is_observed site = true
    /\ site_value site
       = PlaceSettingNode.ObjectProductionRule._recover_rel_pose_from_abs_pose
           self parent_pose (node_pose p).
Proof.
  intros Ht. unfold PlaceSettingNode.ObjectProductionRule.__call__.
  unfold single_instance_of. rewrite Ht, node_class_eqb_refl.
  cbn [Py.assert Py.bind].
  eexists. eexists. split; [reflexivity|].
  cbn.
  unfold PlaceSettingNode.ObjectProductionRule._recover_rel_pose_from_abs_pose.
  rewrite chain_chain_invert. repeat split.
Qed.

(** The place-setting rule of the table returns the same outcome with
    and without an observation. *)
Lemma table_rule_observation_unused
  (self : Table.PlaceSettingProductionRule.t) (parent_pose : Pose2)
  (p : Node Pose2) (draw : Pose2) :
  node_type p = PlaceSetting ->
  Table.PlaceSettingProductionRule.__call__ self parent_pose (Some [p]) draw
  = Table.PlaceSettingProductionRule.__call__ self parent_pose None draw.
Proof.
  intros Ht.
  unfold Table.PlaceSettingProductionRule.__call__, single_instance_of.
  now rewrite Ht.
Qed.

(** C4 (the code departs from the claim).  The table's place-setting
    rule at the origin, under a parent at the origin, is shown a place
    setting observed at x = 1 while its sampler draws the zero offset:
    the sample site is recorded as unobserved and the returned child
    sits at x = 0, not at the observed pose.  [__call__] computes
    [obs_rel_offset] and calls [pyro.sample] without [obs=]. *)
Theorem table_rule_draws_fresh_pose_when_observed :
  let self :=
    Table.PlaceSettingProductionRule.mk "table_prod_000" Examples.origin2 in
  let observed := mkNode PlaceSetting "observed" (mkPose2 1 0 0) in
  exists child site,
    Table.PlaceSettingProductionRule.__call__ self Examples.origin2
      (Some [observed]) Examples.origin2 = Ok ([child], site)
    /\ site_is_observed site = false
    /\ p2_x (node_pose child) = 0
    /\ p2_x (node_pose observed) = 1
    /\ node_pose child <> node_pose observed.
Proof.
  intros self observed. eexists. eexists. split; [reflexivity|].
  cbn. split; [reflexivity|]. split; [ring|]. split; [reflexivity|].
  intros E. apply (f_equal p2_x) in E. cbn in E.
  ring_simplify in E. lra.
Qed.

End PlanarProperties.

(** ** Spatial poses *)

Section SpatialProperties.
Local Open Scope R_scope.

Lemma threshold_pos : 0 < singular_threshold.
Proof. unfold singular_threshold. apply Rinv_0_lt_compat. lra. Qed.

(** The entries of the roll-pitch-yaw rotation matrix. *)
Lemma rotation_tensor_entries (theta phi psi : R) :
  rotation_tensor theta phi psi =
  [ [cos psi * cos phi;
     cos psi * sin phi * sin theta - sin psi * cos theta;
     cos psi * sin phi * cos theta + sin psi * sin theta];
    [sin psi * cos phi;
     sin psi * sin phi * sin theta + cos psi * cos theta;
     sin psi * sin phi * cos theta - cos psi * sin theta];
    [- sin phi; cos phi * sin theta; cos phi * cos theta] ].
Proof.
  unfold rotation_tensor, mm, column, dot. cbn.
  repeat (f_equal; try ring).
Qed.

(** On transform matrices the inverse law is exact: the rotation block
    is orthogonal. *)
Lemma invert_tf_cancels (p q : Pose6) :
  mm (invert_tf (pose_to_tf_matrix p))
     (mm (pose_to_tf_matrix p) (pose_to_tf_matrix q))
  = pose_to_tf_matrix q.
Proof.
  unfold pose_to_tf_matrix. rewrite !rotation_tensor_entries.
  destruct p as [px py pz a b c], q as [qx qy qz d e f].
  cbn [p6_x p6_y p6_z p6_roll p6_pitch p6_yaw].
  unfold invert_tf, mm, column, dot, entry. cbn.
  pose proof (sin2_cos2 a) as Ha. pose proof (sin2_cos2 b) as Hb.
  pose proof (sin2_cos2 c) as Hc. unfold Rsqr in *.
  generalize dependent (cos a). generalize dependent (sin a).
  generalize dependent (cos b). generalize dependent (sin b).
  generalize dependent (cos c). generalize dependent (sin c).
  intros. repeat (f_equal; try nsatz).
Qed.

Lemma atan_scaled_tan (a k : R) :
  0 < k -> cos a <> 0 -> atan (k * sin a / (k * cos a)) = atan (tan a).
Proof. intros Hk Hc. unfold tan. f_equal. field. split; lra. Qed.

(** [atan2] recovers an angle of [(-PI, PI]] from its sine and cosine
    scaled by a positive factor. *)
Lemma atan2_scaled_sin_cos (k a : R) :
  0 < k -> - PI < a <= PI -> atan2 (k * sin a) (k * cos a) = a.
Proof.
  intros Hk [Hlo Hhi]. pose proof PI_RGT_0 as HPI.
  unfold atan2.
  destruct (Rlt_dec 0 (k * cos a)) as [Hpos | Hnpos].
  - assert (Hc : 0 < cos a) by nra.
    assert (Hr : - (PI / 2) < a < PI / 2).
    { split.
      - destruct (Rlt_dec (- (PI / 2)) a) as [|Hn]; [assumption|exfalso].
        assert (cos a <= 0).
        { rewrite <- (cos_neg a). apply cos_le_0; lra. }
        lra.
      - destruct (Rlt_dec a (PI / 2)) as [|Hn]; [assumption|exfalso].
        assert (cos a <= 0) by (apply cos_le_0; lra).
        lra. }
    rewrite atan_scaled_tan by lra. apply atan_tan; assumption.
  - destruct (Rlt_dec (k * cos a) 0) as [Hneg | Hnneg].
    + assert (Hc : cos a < 0) by nra.
      destruct (Rle_dec 0 (k * sin a)) as [Hs | Hs].
      * assert (Hsa : 0 <= sin a) by nra.
        assert (Hr : PI / 2 < a).
        { destruct (Rlt_dec (PI / 2) a) as [|Hn]; [assumption|exfalso].
          destruct (Rle_dec (- (PI / 2)) a).
          - assert (0 <= cos a) by (apply cos_ge_0; lra). lra.
          - assert (sin a < 0) by (apply sin_lt_0_var; lra). lra. }
        rewrite atan_scaled_tan by lra.
        replace (tan a) with (tan (a - PI)).
        2:{ unfold tan. rewrite <- (Ropp_involutive (a - PI)).
            rewrite sin_neg, cos_neg.
            replace (- (a - PI)) with (PI - a) by ring.
            rewrite sin_PI_x, Rtrigo_facts.cos_pi_minus. field. lra. }
        rewrite atan_tan by lra. ring.
      * assert (Hsa : sin a < 0) by nra.
        assert (Hr : a < - (PI / 2)).
        { destruct (Rlt_dec a (- (PI / 2))) as [|Hn]; [assumption|exfalso].
          destruct (Rle_dec a (PI / 2)).
          - assert (0 <= cos a) by (apply cos_ge_0; lra). lra.
          - assert (0 <= sin a) by (apply sin_ge_0; lra). lra. }
        rewrite atan_scaled_tan by lra.
        replace (tan a) with (tan (a + PI)).
        2:{ unfold tan. rewrite neg_sin, neg_cos. field. lra. }
        rewrite atan_tan by lra. ring.
    + assert (Hc : cos a = 0) by nra.
      destruct (Rlt_dec 0 (k * sin a)) as [Hs | Hs].
      * assert (Hsa : 0 < sin a) by nra.
        destruct (Rtotal_order a (PI / 2)) as [Hlt | [Heq | Hgt]];
          [exfalso | lra | exfalso].
        -- destruct (Rlt_dec (- (PI / 2)) a).
           ++ assert (0 < cos a) by (apply cos_gt_0; lra). lra.
           ++ assert (sin a < 0) by (apply sin_lt_0_var; lra). lra.
        -- assert (cos a < 0) by (apply cos_lt_0; lra). lra.
      * destruct (Rlt_dec (k * sin a) 0) as [Hs' | Hs'].
        -- assert (Hsa : sin a < 0) by nra.
           destruct (Rtotal_order a (- (PI / 2))) as [Hlt | [Heq | Hgt]];
             [exfalso | lra | exfalso].
           ++ assert (cos a < 0).
              { rewrite <- (cos_neg a). apply cos_lt_0; lra. }
              lra.
           ++ destruct (Rlt_dec a (PI / 2)).
              ** assert (0 < cos a) by (apply cos_gt_0; lra). lra.
              ** assert (0 <= sin a) by (apply sin_ge_0; lra). lra.
        -- exfalso. assert (sin a = 0) by nra.
           pose proof (sin2_cos2 a) as H2. unfold Rsqr in H2. nra.
Qed.

(** Reading back the transform of a principal pose returns the pose, in
    either branch of [tf_matrix_to_pose]. *)
Lemma tf_matrix_to_pose_of_pose (q : Pose6) :
  principal_rpy q -> tf_matrix_to_pose (pose_to_tf_matrix q) = q.
Proof.
  destruct q as [x y z th ph ps].
  unfold principal_rpy; cbn [p6_roll p6_pitch p6_yaw].
  intros (Hth & Hph & Hps & Hbranch).
  pose proof PI_RGT_0 as HPI. pose proof threshold_pos as Hthr.
  assert (Hc : 0 <= cos ph) by (apply cos_ge_0; lra).
  unfold tf_matrix_to_pose, pose_to_tf_matrix.
  rewrite rotation_tensor_entries.
  cbn [p6_x p6_y p6_z p6_roll p6_pitch p6_yaw]. unfold entry. cbn [nth].
  assert (Hsy : sqrt (cos ps * cos ph * (cos ps * cos ph)
                      + sin ps * cos ph * (sin ps * cos ph)) = cos ph).
  { replace (cos ps * cos ph * (cos ps * cos ph)
             + sin ps * cos ph * (sin ps * cos ph))
      with (Rsqr (cos ph)).
    - now apply sqrt_Rsqr.
    - pose proof (sin2_cos2 ps) as H. unfold Rsqr in *.
      replace (cos ps * cos ph * (cos ps * cos ph)
               + sin ps * cos ph * (sin ps * cos ph))
        with ((sin ps * sin ps + cos ps * cos ps) * (cos ph * cos ph))
        by ring.
      rewrite H. ring. }
  rewrite Hsy.
  assert (Hpitch : atan2 (- - sin ph) (cos ph) = ph).
  { rewrite Ropp_involutive.
    rewrite <- (@atan2_scaled_sin_cos 1 ph) at 3 by lra.
    now rewrite !Rmult_1_l. }
  rewrite Hpitch.
  destruct (Rle_dec singular_threshold (cos ph)) as [Hns | Hs].
  - assert (Hk : 0 < cos ph) by lra.
    f_equal.
    + now apply atan2_scaled_sin_cos.
    + rewrite (Rmult_comm (sin ps)), (Rmult_comm (cos ps)).
      now apply atan2_scaled_sin_cos.
  - destruct Hbranch as [Hns | Hz]; [contradiction|]. subst ps.
    rewrite sin_0, cos_0. f_equal.
    replace (- (0 * sin ph * cos th - 1 * sin th)) with (1 * sin th) by ring.
    replace (0 * sin ph * sin th + 1 * cos th) with (1 * cos th) by ring.
    apply atan2_scaled_sin_cos; lra.
Qed.

(** C5, counterexample: chained behind the origin and cancelled again,
    the pose pitched straight up with a yaw of one radian comes back
    with yaw 0, from the singular branch of [tf_matrix_to_pose]. *)
Lemma spatial_round_trip_loses_yaw_at_gimbal_lock :
  p6_yaw (spatial_round_trip Examples.origin6 Examples.pitched_up_yawed) = 0
  /\ p6_yaw Examples.pitched_up_yawed = 1
  /\ spatial_round_trip Examples.origin6 Examples.pitched_up_yawed
     <> Examples.pitched_up_yawed.
Proof.
  assert (Hyaw : p6_yaw (spatial_round_trip Examples.origin6
                           Examples.pitched_up_yawed) = 0).
  { pose proof threshold_pos as Hthr.
    unfold spatial_round_trip. rewrite invert_tf_cancels.
    unfold tf_matrix_to_pose, pose_to_tf_matrix, Examples.pitched_up_yawed.
    rewrite rotation_tensor_entries.
    cbn [p6_x p6_y p6_z p6_roll p6_pitch p6_yaw]. unfold entry. cbn [nth].
    rewrite cos_PI2.
    replace (cos 1 * 0 * (cos 1 * 0) + sin 1 * 0 * (sin 1 * 0)) with 0
      by ring.
    rewrite sqrt_0.
    destruct (Rle_dec singular_threshold 0); [lra|reflexivity]. }
  split; [exact Hyaw|]. split; [reflexivity|].
  intros E. rewrite E in Hyaw. cbn in Hyaw. lra.
Qed.

(** C5, as amended.  For all planar poses [p] and [q],
    [chain_pose_transforms (invert_pose p) (chain_pose_transforms p q)]
    is [q]; for spatial poses the identity through [pose_to_tf_matrix],
    [invert_tf] and [tf_matrix_to_pose] returns [q] for every [p] when
    [q] is principal: roll and yaw in (-PI, PI], pitch in [-PI/2, PI/2],
    and either the non-singular branch is taken (cos pitch >= 1e-6) or
    the yaw of [q] is 0, the value the singular branch writes. *)
Theorem pose_chain_inverse_law :
  forall (p q : Pose2) (p6 q6 : Pose6),
    principal_rpy q6 ->
    chain_pose_transforms (invert_pose p) (chain_pose_transforms p q) = q
    /\ spatial_round_trip p6 q6 = q6.
Proof.
  intros p q p6 q6 Hq. split.
  - apply chain_invert_chain.
  - unfold spatial_round_trip. rewrite invert_tf_cancels.
    now apply tf_matrix_to_pose_of_pose.
Qed.

Lemma pose_chain_inverse_law_witness :
  principal_rpy Examples.unit_x6
  /\ chain_pose_transforms (invert_pose (mkPose2 1 2 3))
       (chain_pose_transforms (mkPose2 1 2 3) (mkPose2 4 5 6))
     = mkPose2 4 5 6
  /\ spatial_round_trip Examples.pitched_up_yawed Examples.unit_x6
     = Examples.unit_x6.
Proof.
  assert (H : principal_rpy Examples.unit_x6).
  { pose proof PI_RGT_0 as HPI. unfold principal_rpy. simpl.
    repeat split; lra. }
  split; [exact H|].
  exact (@pose_chain_inverse_law (mkPose2 1 2 3) (mkPose2 4 5 6)
           Examples.pitched_up_yawed Examples.unit_x6 H).
Defined.

(** ** The dish-bin rule *)

Lemma pose_to_tf_matrix_origin :
  pose_to_tf_matrix Examples.origin6
  = [ [1; 0; 0; 0]; [0; 1; 0; 0]; [0; 0; 1; 0]; [0; 0; 0; 1] ].
Proof.
  unfold pose_to_tf_matrix, Examples.origin6. rewrite rotation_tensor_entries.
  cbn [p6_x p6_y p6_z p6_roll p6_pitch p6_yaw]. unfold entry. cbn [nth].
  rewrite sin_0, cos_0. repeat (f_equal; try ring).
Qed.

Lemma mm_identity_right (q : Pose6) :
  mm (pose_to_tf_matrix q)
     [ [1; 0; 0; 0]; [0; 1; 0; 0]; [0; 0; 1; 0]; [0; 0; 0; 1] ]
  = pose_to_tf_matrix q.
Proof.
  unfold pose_to_tf_matrix. rewrite rotation_tensor_entries.
  unfold mm, column, dot, entry. cbn. repeat (f_equal; try ring).
Qed.

Lemma invert_identity_left (q : Pose6) :
  mm (invert_tf [ [1; 0; 0; 0]; [0; 1; 0; 0]; [0; 0; 1; 0]; [0; 0; 0; 1] ])
     (pose_to_tf_matrix q)
  = pose_to_tf_matrix q.
Proof.
  unfold pose_to_tf_matrix. rewrite rotation_tensor_entries.
  unfold invert_tf, mm, column, dot, entry. cbn. repeat (f_equal; try ring).
Qed.

(** With the rule's own pose and the relative offset both at the origin,
    the forward chain places the child at the parent's pose, and the
    recovery hands that pose back unchanged: the parent's transform is
    never inverted. *)
Lemma dish_bin_recovery_returns_parent_pose (name : string)
  (cls : node_class) (parent_pose : Pose6) :
  principal_rpy parent_pose ->
  let self := DishBin.ObjectProductionRule.mk name Examples.origin6 cls in
  DishBin.ObjectProductionRule.forward_chain self parent_pose Examples.origin6
  = parent_pose
  /\ DishBin.ObjectProductionRule._recover_rel_offset_from_abs_offset self
       parent_pose parent_pose = parent_pose.
Proof.
  intros Hp self.
  unfold DishBin.ObjectProductionRule.forward_chain,
    DishBin.ObjectProductionRule._recover_rel_offset_from_abs_offset.
  cbn [DishBin.ObjectProductionRule.pose self].
  rewrite pose_to_tf_matrix_origin, !mm_identity_right, invert_identity_left.
  split; now apply tf_matrix_to_pose_of_pose.
Qed.

(** C3 (the code departs from the claim).  For the dish-bin rule at the
    origin under a parent one unit along x, the relative offset 0 is
    chained forward to the absolute pose (1, 0, 0, 0, 0, 0), and the
    recovery returns that same pose, not the offset 0:
    [_recover_rel_offset_from_abs_offset] computes
    [my_pose_in_world_tf] and inverts [my_pose_tf] instead. *)
Theorem dish_bin_recovery_ignores_parent_pose :
  let self :=
    DishBin.ObjectProductionRule.mk "dish_bin_prod_mug_1_000"
      Examples.origin6 Mug_1 in
  let rel_offset := Examples.origin6 in
  let abs_offset :=
    DishBin.ObjectProductionRule.forward_chain self Examples.unit_x6
      rel_offset in
  abs_offset = Examples.unit_x6
  /\ DishBin.ObjectProductionRule._recover_rel_offset_from_abs_offset self
       Examples.unit_x6 abs_offset = Examples.unit_x6
  /\ Examples.unit_x6 <> rel_offset.
Proof.
  intros self rel_offset abs_offset.
  assert (Hp : principal_rpy Examples.unit_x6).
  { pose proof PI_RGT_0 as HPI. unfold principal_rpy. simpl.
    repeat split; lra. }
  destruct (@dish_bin_recovery_returns_parent_pose
              "dish_bin_prod_mug_1_000" Mug_1 Examples.unit_x6 Hp)
    as [Hf Hr].
  assert (Habs : abs_offset = Examples.unit_x6) by exact Hf.
  split; [exact Habs|]. split.
  - rewrite Habs. exact Hr.
  - intros E. apply (f_equal p6_x) in E. simpl in E. lra.
Qed.

End SpatialProperties.

(** ** Parse trees *)

Section ParseTreeProperties.
Local Open Scope R_scope.














End ParseTreeProperties.

(** ** Observed mode of the dish-bin rule *)

(** Shown one of its own products, a mug, the dish-bin rule fails its
    assertion: the observed branch of [sample_products] asks for an
    instance of [PlaceSetting]. *)
Lemma dish_bin_rule_rejects_observed_mug
  (self : DishBin.ObjectProductionRule.t) (parent_pose : Pose6)
  (name : string) (pose draw : Pose6) :
  DishBin.ObjectProductionRule.sample_products self parent_pose
    (Some [mkNode Mug_1 name pose]) draw
  = Raise AssertionError.
Proof. reflexivity. Qed.

(** * Further properties *)

(** ** The group of planar poses *)

Section PlanarGroup.
Local Open Scope R_scope.

(** X1.  Chaining planar poses is associative. *)
Theorem chain_pose_transforms_assoc :
  forall a b c : Pose2,
    chain_pose_transforms (chain_pose_transforms a b) c
    = chain_pose_transforms a (chain_pose_transforms b c).
Proof.
  intros [ax ay ar] [bx by_ br] [cx cy cr].
  unfold chain_pose_transforms; cbn [p2_x p2_y p2_theta].
  rewrite cos_plus, sin_plus. f_equal; ring.
Qed.

(** X2.  The origin is the unit of chaining and [invert_pose] gives the
    inverse on both sides. *)
Theorem invert_pose_two_sided_inverse :
  forall p : Pose2,
    chain_pose_transforms Examples.origin2 p = p
    /\ chain_pose_transforms p Examples.origin2 = p
    /\ chain_pose_transforms (invert_pose p) p = Examples.origin2
    /\ chain_pose_transforms p (invert_pose p) = Examples.origin2
    /\ invert_pose (invert_pose p) = p.
Proof.
  intros [x y r]. unfold chain_pose_transforms, invert_pose, Examples.origin2.
  cbn [p2_x p2_y p2_theta].
  rewrite ?Ropp_involutive, ?cos_neg, ?sin_neg, ?cos_0, ?sin_0.
  pose proof (sin2_cos2 r) as H. unfold Rsqr in H.
  generalize dependent (cos r). generalize dependent (sin r). intros s c H.
  repeat split; f_equal; nsatz.
Qed.


End PlanarGroup.

(** ** Planar production rules *)

Section PlanarRules.
Local Open Scope R_scope.

Variable offset_log_prob : Pose2 -> R.

(** X4.  Shown one observed child of its product type, the object rule
    of a place setting observes its sample site at the recovered
    relative pose and returns the child at the observed pose under the
    rule's own name, whatever the sampler would have drawn. *)
Theorem object_rule_observed_call :
  forall (self : PlaceSettingNode.ObjectProductionRule.t)
         (parent_pose : Pose2) (p : Node Pose2) (draw : Pose2),
    node_type p = PlaceSettingNode.ObjectProductionRule.object_type self ->
    PlaceSettingNode.ObjectProductionRule.__call__ self parent_pose
      (Some [p]) draw
    = Ok ([mkNode (PlaceSettingNode.ObjectProductionRule.object_type self)
             (PlaceSettingNode.ObjectProductionRule.name self ++ "_"
              ++ PlaceSettingNode.ObjectProductionRule.object_name self)
             (node_pose p)],
          mkSite (PlaceSettingNode.ObjectProductionRule.name self ++ "_pose")
            (chain_pose_transforms (invert_pose parent_pose) (node_pose p))
            true).
Proof.
  intros self parent_pose p draw Ht.
  unfold PlaceSettingNode.ObjectProductionRule.__call__, single_instance_of.
  rewrite Ht, node_class_eqb_refl. cbn [Py.assert Py.bind].
  unfold PlaceSettingNode.ObjectProductionRule._recover_rel_pose_from_abs_pose.
  unfold pyro_site. cbn [pyro_sample site_value].
  now rewrite chain_chain_invert.
Qed.

Lemma object_rule_observed_call_witness :
  let self := PlaceSettingNode.ObjectProductionRule.mk "setting_prod_000"
                "plate" Plate in
  let observed := mkNode Plate "observed_plate" (mkPose2 1 2 3) in
  node_type observed = PlaceSettingNode.ObjectProductionRule.object_type self
  /\ PlaceSettingNode.ObjectProductionRule.__call__ self (mkPose2 4 5 6)
       (Some [observed]) Examples.origin2
     = Ok ([mkNode Plate "setting_prod_000_plate" (mkPose2 1 2 3)],
           mkSite "setting_prod_000_pose"
             (chain_pose_transforms (invert_pose (mkPose2 4 5 6))
                (mkPose2 1 2 3))
             true).
Proof.
  intros self observed. split; [reflexivity|].
  exact (@object_rule_observed_call self (mkPose2 4 5 6) observed
           Examples.origin2 eq_refl).
Defined.

(** X5.  The table's place-setting rule scores the child it samples at
    the log-density of the offset it drew: [score_products] recovers
    exactly the relative offset that [__call__] chained onto the rule's
    pose in the world. *)
Theorem table_rule_scores_its_own_sample :
  forall (self : Table.PlaceSettingProductionRule.t)
         (parent_pose draw : Pose2),
  exists child site,
    Table.PlaceSettingProductionRule.__call__ self parent_pose None draw
    = Ok ([child], site)
    /\ site_value site = draw
    /\ Table.PlaceSettingProductionRule._recover_rel_offset_from_abs_offset
         self parent_pose (node_pose child) = draw
    /\ PlaceSettingProductionRule_score_products offset_log_prob self
         parent_pose [child] = Finite (offset_log_prob draw).
Proof.
  intros self parent_pose draw. eexists. eexists.
  split; [reflexivity|]. split; [reflexivity|].
  assert (H : Table.PlaceSettingProductionRule._recover_rel_offset_from_abs_offset
                self parent_pose
                (chain_pose_transforms
                   (chain_pose_transforms parent_pose
                      (Table.PlaceSettingProductionRule.pose self)) draw)
              = draw).
  { unfold Table.PlaceSettingProductionRule._recover_rel_offset_from_abs_offset.
    apply chain_invert_chain. }
  split.
  - exact H.
  - unfold PlaceSettingProductionRule_score_products.
    cbn [node_type node_pose node_class_eqb negb].
    cbn [site_value pyro_site pyro_sample]. now rewrite H.
Qed.

(** X6.  The object rule of a place setting scores the child it samples
    at the log-density of the relative pose it drew. *)
Theorem object_rule_scores_its_own_sample :
  forall (self : PlaceSettingNode.ObjectProductionRule.t)
         (parent_pose draw : Pose2),
  exists child site,
    PlaceSettingNode.ObjectProductionRule.__call__ self parent_pose None draw
    = Ok ([child], site)
    /\ site_is_observed site = false
    /\ ObjectProductionRule_score_products offset_log_prob self parent_pose
         [child] = Finite (offset_log_prob draw).
Proof.
  intros self parent_pose draw. eexists. eexists.
  split; [reflexivity|]. split; [reflexivity|].
  unfold ObjectProductionRule_score_products.
  cbn [node_type node_pose]. rewrite node_class_eqb_refl. cbn [negb].
  unfold PlaceSettingNode.ObjectProductionRule._recover_rel_pose_from_abs_pose.
  cbn [site_value pyro_site pyro_sample].
  now rewrite chain_invert_chain.
Qed.

End PlanarRules.

(** ** Spatial transforms *)

Section SpatialTransforms.
Local Open Scope R_scope.

(** X8.  [invert_tf] of a pose's transform is its inverse on both
    sides. *)
Theorem invert_tf_two_sided_inverse :
  forall p : Pose6,
    mm (invert_tf (pose_to_tf_matrix p)) (pose_to_tf_matrix p)
    = [ [1; 0; 0; 0]; [0; 1; 0; 0]; [0; 0; 1; 0]; [0; 0; 0; 1] ]
    /\ mm (pose_to_tf_matrix p) (invert_tf (pose_to_tf_matrix p))
       = [ [1; 0; 0; 0]; [0; 1; 0; 0]; [0; 0; 1; 0]; [0; 0; 0; 1] ].
Proof.
  intros [px py pz a b c].
  unfold pose_to_tf_matrix. rewrite !rotation_tensor_entries.
  cbn [p6_x p6_y p6_z p6_roll p6_pitch p6_yaw].
  unfold invert_tf, mm, column, dot, entry. cbn.
  pose proof (sin2_cos2 a) as Ha. pose proof (sin2_cos2 b) as Hb.
  pose proof (sin2_cos2 c) as Hc. unfold Rsqr in *.
  generalize dependent (cos a). generalize dependent (sin a).
  generalize dependent (cos b). generalize dependent (sin b).
  generalize dependent (cos c). generalize dependent (sin c).
  intros. split; repeat (f_equal; try nsatz).
Qed.

Lemma atan_nonpos (x : R) : x <= 0 -> atan x <= 0.
Proof.
  intros [H | ->].
  - left. rewrite <- atan_0. now apply atan_increasing.
  - rewrite atan_0. lra.
Qed.

(** [atan2] returns an angle of [(-PI, PI]]. *)
Lemma atan2_range (y x : R) : - PI < atan2 y x <= PI.
Proof.
  pose proof PI_RGT_0 as HPI. unfold atan2.
  destruct (Rlt_dec 0 x) as [Hx | Hx].
  - pose proof (atan_bound (y / x)). lra.
  - destruct (Rlt_dec x 0) as [Hx' | Hx'].
    + pose proof (atan_bound (y / x)) as Hb.
      destruct (Rle_dec 0 y) as [Hy | Hy].
      * assert (atan (y / x) <= 0).
        { apply atan_nonpos. unfold Rdiv.
          assert (/ x < 0) by now apply Rinv_lt_0_compat. nra. }
        lra.
      * assert (Hy' : y < 0) by lra.
        assert (0 < atan (y / x)).
        { rewrite <- atan_0. apply atan_increasing. unfold Rdiv.
          assert (/ x < 0) by now apply Rinv_lt_0_compat. nra. }
        lra.
    + destruct (Rlt_dec 0 y); [lra|]. destruct (Rlt_dec y 0); lra.
Qed.

(** With a non-negative second argument the angle lies in
    [[-PI/2, PI/2]]. *)
Lemma atan2_right_half (y x : R) :
  0 <= x -> - (PI / 2) <= atan2 y x <= PI / 2.
Proof.
  intros Hx0. pose proof PI_RGT_0 as HPI. unfold atan2.
  destruct (Rlt_dec 0 x) as [Hx | Hx].
  - pose proof (atan_bound (y / x)). lra.
  - destruct (Rlt_dec x 0) as [Hx' | Hx']; [lra|].
    destruct (Rlt_dec 0 y); [lra|]. destruct (Rlt_dec y 0); lra.
Qed.

Lemma tf_matrix_to_pose_ranges (tf : matrix) :
  - PI < p6_roll (tf_matrix_to_pose tf) <= PI
  /\ - (PI / 2) <= p6_pitch (tf_matrix_to_pose tf) <= PI / 2
  /\ - PI < p6_yaw (tf_matrix_to_pose tf) <= PI.
Proof.
  pose proof PI_RGT_0 as HPI.
  unfold tf_matrix_to_pose.
  destruct (Rle_dec _ _); cbn [p6_roll p6_pitch p6_yaw].
  - split; [apply atan2_range|]. split; [|apply atan2_range].
    apply atan2_right_half, sqrt_pos.
  - split; [apply atan2_range|]. split; [|lra].
    apply atan2_right_half, sqrt_pos.
Qed.

(** X9.  Whatever the matrix, [tf_matrix_to_pose] returns roll and yaw
    in (-PI, PI] and pitch in [-PI/2, PI/2]. *)
Theorem tf_matrix_to_pose_angle_ranges :
  forall tf : matrix,
    let pose := tf_matrix_to_pose tf in
    - PI < p6_roll pose <= PI
    /\ - (PI / 2) <= p6_pitch pose <= PI / 2
    /\ - PI < p6_yaw pose <= PI.
Proof. intros tf. cbv zeta. apply tf_matrix_to_pose_ranges. Qed.

(** X10.  The poses that survive the trip through their transform are
    exactly the principal ones. *)
Theorem pose_round_trip_iff_principal :
  forall q : Pose6,
    tf_matrix_to_pose (pose_to_tf_matrix q) = q <-> principal_rpy q.
Proof.
  intros q. split; [|apply tf_matrix_to_pose_of_pose].
  intros H.
  pose proof (tf_matrix_to_pose_ranges (pose_to_tf_matrix q)) as Hr.
  rewrite H in Hr. destruct Hr as (Hroll & Hpitch & Hyaw).
  unfold principal_rpy. repeat (split; [tauto|]).
  assert (Hc : 0 <= cos (p6_pitch q)) by (apply cos_ge_0; lra).
  destruct q as [x y z th ph ps]. cbn [p6_roll p6_pitch p6_yaw] in *.
  unfold tf_matrix_to_pose, pose_to_tf_matrix in H.
  rewrite rotation_tensor_entries in H.
  cbn [p6_x p6_y p6_z p6_roll p6_pitch p6_yaw] in H.
  unfold entry in H. cbn [nth] in H.
  replace (cos ps * cos ph * (cos ps * cos ph)
           + sin ps * cos ph * (sin ps * cos ph))
    with (Rsqr (cos ph)) in H.
  2:{ pose proof (sin2_cos2 ps) as H2. unfold Rsqr in *.
      replace (cos ps * cos ph * (cos ps * cos ph)
               + sin ps * cos ph * (sin ps * cos ph))
        with ((sin ps * sin ps + cos ps * cos ps) * (cos ph * cos ph))
        by ring.
      rewrite H2. ring. }
  rewrite (sqrt_Rsqr _ Hc) in H.
  destruct (Rle_dec singular_threshold (cos ph)) as [Hns | Hs].
  - now left.
  - right. now injection H.
Qed.

End SpatialTransforms.

(** ** Or and And nodes *)

Lemma index_nth_error (r : rule) (l : list rule) (k : nat) :
  Py.index r l = Ok k -> nth_error l k = Some r.
Proof.
  revert k. induction l as [|y l IH]; intros k H; simpl in H.
  - discriminate.
  - destruct (Nat.eqb y r) eqn:E.
    + injection H as <-. apply Nat.eqb_eq in E. now subst.
    + destruct (Py.index r l) as [k'|]; simpl in H; [|discriminate].
      injection H as <-. simpl. now apply IH.
Qed.

Lemma contains_In (r : rule) (l : list rule) :
  Py.contains r l = true <-> In r l.
Proof.
  unfold Py.contains. rewrite existsb_exists. split.
  - intros (x & Hx & E). apply Nat.eqb_eq in E. now subst.
  - intros H. exists r. split; [assumption|apply Nat.eqb_refl].
Qed.

(** In a list without repetition [index] finds an element at its own
    position. *)
Lemma index_of_nth (l : list rule) (k : nat) (r : rule) :
  NoDup l -> nth_error l k = Some r -> Py.index r l = Ok k.
Proof.
  intros Hnd. revert k. induction Hnd as [|y l Hy Hnd IH]; intros k H.
  - destruct k; discriminate.
  - destruct k as [|k]; simpl in *.
    + injection H as ->. now rewrite Nat.eqb_refl.
    + destruct (Nat.eqb y r) eqn:E.
      * apply Nat.eqb_eq in E. subst. exfalso. apply Hy.
        eapply nth_error_In, H.
      * now rewrite (IH _ H).
Qed.

Lemma list_eqb_eq (l1 l2 : list rule) : Py.list_eqb l1 l2 = true <-> l1 = l2.
Proof.
  revert l2. induction l1 as [|a l1 IH]; intros [|b l2]; simpl;
    try (split; [discriminate|discriminate]); try tauto.
  rewrite andb_true_iff, Nat.eqb_eq, IH. split.
  - now intros [-> ->].
  - intros H. now injection H.
Qed.

(** What the constructor of an Or node establishes. *)
Lemma or_node_constructed (nm : string) (rules : list rule)
  (weights : list Q) (self : OrNode.t) :
  OrNode.__init__ nm rules weights = Ok self ->
  self = OrNode.mk nm rules weights
  /\ List.length weights = List.length rules
  /\ ~ (Qsum weights == 0)%Q
  /\ Forall (fun w => (0 <= w / Qsum weights)%Q) weights.
Proof.
  unfold OrNode.__init__, Categorical.
  destruct (List.length weights =? List.length rules)%nat eqn:El;
    cbn [negb]; [|discriminate].
  destruct (List.length weights =? 0)%nat; [discriminate|].
  destruct (Qeq_bool (Qsum weights) 0) eqn:Es; cbn [Py.bind]; [discriminate|].
  destruct (forallb _ _) eqn:Ep; cbn [Py.bind]; [|discriminate].
  intros H. injection H as <-.
  split; [reflexivity|]. split; [now apply Nat.eqb_eq|]. split.
  - intros Hz. apply Qeq_bool_iff in Hz. congruence.
  - rewrite forallb_forall in Ep. apply Forall_forall. intros w Hw.
    apply Qle_bool_iff, Ep, in_map_iff. now exists w.
Qed.

Lemma ln_monotone (x y : R) : (0 < x -> x <= y -> ln x <= ln y)%R.
Proof.
  intros Hx [Hlt | ->]; [|apply Rle_refl].
  left. now apply ln_increasing.
Qed.

Lemma float32_eps_bounds :
  (0 < float32_eps /\ float32_eps <= 1 - float32_eps)%R.
Proof. unfold float32_eps. lra. Qed.

Lemma clamp_probs_range (p : R) :
  (float32_eps <= clamp_probs p <= 1 - float32_eps)%R.
Proof.
  pose proof float32_eps_bounds as [_ He]. unfold clamp_probs. split.
  - apply Rmin_glb; [apply Rmax_r | exact He].
  - apply Rmin_r.
Qed.

Lemma clamp_probs_inside (p : R) :
  (float32_eps <= p <= 1 - float32_eps)%R -> clamp_probs p = p.
Proof.
  intros [H1 H2]. unfold clamp_probs.
  rewrite (Rmax_left _ _ H1). now apply Rmin_left.
Qed.

(** X11.  An Or node that the constructor built, observed on one of its
    own rules: [_recover_active_rule] finds a position [k] that holds
    the rule and has a weight, observed sampling hands the rule back,
    and the score is the logarithm of the clamped probability of
    category [k]. *)
Theorem or_node_observed_rule_round_trip :
  forall (nm : string) (rules : list rule) (weights : list Q)
         (self : OrNode.t) (r : rule) (draw : nat),
    OrNode.__init__ nm rules weights = Ok self ->
    In r rules ->
    exists k,
      (k < List.length weights)%nat
      /\ nth_error rules k = Some r
      /\ OrNode._recover_active_rule self [r] = Ok k
      /\ OrNode.sample_production_rules self draw (Some [r]) = Ok [r]
      /\ OrNode.score_production_rules self [r]
         = Ok (Finite (ln (clamp_probs
                             (Q2R (nth k weights 0%Q / Qsum weights))))).
Proof.
  intros nm rules weights self r draw Hinit Hin.
  destruct (or_node_constructed _ _ _ Hinit) as (-> & Hlen & _).
  apply contains_In in Hin.
  destruct (contains_true_index _ _ Hin) as (k & Hk & Hlt).
  pose proof (index_nth_error _ _ Hk) as Hnth.
  exists k. split; [lia|]. split; [exact Hnth|]. split; [exact Hk|]. split.
  - unfold OrNode.sample_production_rules, OrNode._recover_active_rule.
    cbn [OrNode.production_rules]. rewrite Hk.
    cbn [Py.bind pyro_sample]. now rewrite Hnth.
  - unfold OrNode.score_production_rules, OrNode._recover_active_rule.
    cbn [List.length Nat.eqb negb OrNode.production_rules
         OrNode.production_weights].
    now rewrite Hk.
Qed.

Lemma or_node_observed_rule_round_trip_witness :
  let self := OrNode.mk "or" [10; 20; 30]%nat [1; 2; 1]%Q in
  OrNode.__init__ "or" [10; 20; 30]%nat [1; 2; 1]%Q = Ok self
  /\ In 20%nat [10; 20; 30]%nat
  /\ exists k,
       (k < List.length [1; 2; 1]%Q)%nat
       /\ nth_error [10; 20; 30]%nat k = Some 20%nat
       /\ OrNode._recover_active_rule self [20%nat] = Ok k
       /\ OrNode.sample_production_rules self 0 (Some [20%nat]) = Ok [20%nat]
       /\ OrNode.score_production_rules self [20%nat]
          = Ok (Finite (ln (clamp_probs
                              (Q2R (nth k [1; 2; 1]%Q 0%Q
                                    / Qsum [1; 2; 1]%Q))))).
Proof.
  intros self.
  assert (Hinit : OrNode.__init__ "or" [10; 20; 30]%nat [1; 2; 1]%Q = Ok self)
    by reflexivity.
  assert (H : In 20%nat [10; 20; 30]%nat) by (simpl; tauto).
  split; [exact Hinit|]. split; [exact H|].
  exact (@or_node_observed_rule_round_trip "or" [10; 20; 30]%nat
           [1; 2; 1]%Q self 20%nat 0%nat Hinit H).
Defined.

(** X12.  An Or node that the constructor built over pairwise distinct
    rules scores its own unobserved sample consistently: sampling
    returns the single rule at the drawn position, and scoring that
    selection gives a finite log-probability, never below log eps, that
    is exactly the logarithm of the drawn category's probability
    whenever that probability lies between eps and 1 - eps. *)
Theorem or_node_scores_its_own_sample :
  forall (nm : string) (rules : list rule) (weights : list Q)
         (self : OrNode.t) (draw : nat) (r : rule),
    OrNode.__init__ nm rules weights = Ok self ->
    NoDup rules ->
    nth_error rules draw = Some r ->
    let p := Q2R (nth draw weights 0%Q / Qsum weights) in
    OrNode.sample_production_rules self draw None = Ok [r]
    /\ exists x : R,
         OrNode.score_production_rules self [r] = Ok (Finite x)
         /\ (ln float32_eps <= x <= ln (1 - float32_eps))%R
         /\ ((float32_eps <= p <= 1 - float32_eps)%R -> x = ln p).
Proof.
  intros nm rules weights self draw r Hinit Hnd Hnth p.
  destruct (or_node_constructed _ _ _ Hinit) as (-> & _).
  split.
  - unfold OrNode.sample_production_rules. cbn [Py.bind pyro_sample].
    cbn [OrNode.production_rules]. now rewrite Hnth.
  - exists (ln (clamp_probs p)). split; [|split].
    + unfold OrNode.score_production_rules, OrNode._recover_active_rule.
      cbn [List.length Nat.eqb negb OrNode.production_rules
           OrNode.production_weights].
      now rewrite (index_of_nth _ Hnd Hnth).
    + pose proof float32_eps_bounds as [Hpos _].
      destruct (clamp_probs_range p) as [Hlo Hhi]. split.
      * now apply ln_monotone.
      * apply ln_monotone; [lra | exact Hhi].
    + intros Hp. now rewrite (clamp_probs_inside Hp).
Qed.

Lemma or_node_scores_its_own_sample_witness :
  let self := OrNode.mk "or" [10; 20]%nat [0; 1]%Q in
  let p := Q2R (nth 0 [0; 1]%Q 0%Q / Qsum [0; 1]%Q) in
  OrNode.__init__ "or" [10; 20]%nat [0; 1]%Q = Ok self
  /\ NoDup [10; 20]%nat
  /\ nth_error [10; 20]%nat 0 = Some 10%nat
  /\ OrNode.sample_production_rules self 0 None = Ok [10%nat]
  /\ exists x : R,
       OrNode.score_production_rules self [10%nat] = Ok (Finite x)
       /\ (ln float32_eps <= x <= ln (1 - float32_eps))%R
       /\ ((float32_eps <= p <= 1 - float32_eps)%R -> x = ln p).
Proof.
  intros self p.
  assert (Hinit : OrNode.__init__ "or" [10; 20]%nat [0; 1]%Q = Ok self)
    by reflexivity.
  assert (Hnd : NoDup [10; 20]%nat).
  { repeat constructor; simpl; intuition lia. }
  split; [exact Hinit|]. split; [exact Hnd|]. split; [reflexivity|].
  exact (@or_node_scores_its_own_sample "or" [10; 20]%nat [0; 1]%Q self
           0%nat 10%nat Hinit Hnd eq_refl).
Defined.

(** X13.  Observed sampling of an And node succeeds, with the node's
    rules, exactly on the node's own rule list, and fails its assertion
    on every other list. *)
Theorem and_node_observed_sampling :
  forall (self : AndNode.t) (obs : list rule),
    (AndNode.sample_production_rules self (Some obs)
     = Ok self.(AndNode.production_rules)
     <-> obs = self.(AndNode.production_rules))
    /\ (AndNode.sample_production_rules self (Some obs)
        = Raise AssertionError
        <-> obs <> self.(AndNode.production_rules)).
Proof.
  intros self obs. unfold AndNode.sample_production_rules, Py.assert.
  destruct (Py.list_eqb obs (AndNode.production_rules self)) eqn:E;
    cbn [Py.bind].
  - apply list_eqb_eq in E. split; split; intros H; try assumption;
      try reflexivity; try discriminate. contradiction.
  - assert (Hne : obs <> AndNode.production_rules self).
    { intros H. apply list_eqb_eq in H. congruence. }
    split; split; intros H; try assumption; try reflexivity;
      try discriminate. contradiction.
Qed.

(** ** Constructing a CovaryingSet node *)

Section CovaryingConstruction.

(** Distinct powers of two below [2 ^ n] sum to less than [2 ^ n]. *)
Lemma pow2_sum_bound (n : nat) :
  forall ps : list nat,
    NoDup ps -> Forall (fun p => p < n)%nat ps ->
    (list_sum (map (Nat.pow 2) ps) < 2 ^ n)%nat.
Proof.
  induction n as [|n IH]; intros ps Hnd Hlt.
  - destruct ps as [|p ps]; [simpl; lia|].
    inversion Hlt; subst. lia.
  - destruct (in_dec Nat.eq_dec n ps) as [Hin | Hnin].
    + destruct (in_split _ _ Hin) as (l1 & l2 & ->).
      apply NoDup_remove in Hnd as [Hnd Hn].
      rewrite map_app, list_sum_app. cbn [map].
      change (list_sum (2 ^ n :: map (Nat.pow 2) l2)%nat)
        with (2 ^ n + list_sum (map (Nat.pow 2) l2))%nat.
      assert (Hrest : (list_sum (map (Nat.pow 2) (l1 ++ l2)) < 2 ^ n)%nat).
      { apply IH; [assumption|].
        rewrite Forall_forall in *. intros p Hp.
        assert (p <> n) by (intros ->; contradiction).
        assert (p < S n)%nat by (apply Hlt; rewrite in_app_iff in *; simpl; tauto).
        lia. }
      rewrite map_app, list_sum_app in Hrest.
      rewrite Nat.pow_succ_r'. lia.
    + assert (list_sum (map (Nat.pow 2) ps) < 2 ^ n)%nat.
      { apply IH; [assumption|].
        rewrite Forall_forall in *. intros p Hp.
        assert (p <> n) by (intros ->; contradiction).
        specialize (Hlt p Hp). lia. }
      rewrite Nat.pow_succ_r'. lia.
Qed.


Lemma combination_index_out_of_range (n : nat) (hint : list Z) (acc : nat) :
  Exists (fun i => i < 0 \/ Z.of_nat n <= i)%Z hint ->
  CovaryingSetNode.combination_index n hint acc = Raise AssertionError.
Proof.
  revert acc. induction hint as [|i hint IH]; intros acc H; simpl.
  - inversion H.
  - unfold Py.assert.
    destruct ((0 <=? i)%Z && (i <? Z.of_nat n)%Z) eqn:E; cbn [Py.bind];
      [|reflexivity].
    apply IH. inversion H as [? ? Hi | ? ? Hrest]; subst; [|assumption].
    apply andb_true_iff in E as [E1 E2].
    apply Z.leb_le in E1. apply Z.ltb_lt in E2. lia.
Qed.


Lemma setitem_nonneg (w w' : list Q) (i : nat) (val : Q) :
  (0 <= val)%Q -> Forall (Qle 0) w ->
  CovaryingSetNode.setitem w i val = Ok w' -> Forall (Qle 0) w'.
Proof.
  intros Hv. revert i w'. induction w as [|x w IH]; intros i w' Hw H;
    simpl in H; [discriminate|].
  inversion Hw; subst.
  destruct i as [|i].
  - injection H as <-. now constructor.
  - destruct (CovaryingSetNode.setitem w i val) as [r|] eqn:E; simpl in H;
      [|discriminate].
    injection H as <-. constructor; [assumption|]. eapply IH; eassumption.
Qed.

Lemma apply_hints_nonneg (n : nat) (hints : list (list Z * Q))
  (w w' : list Q) :
  Forall (Qle 0) w ->
  CovaryingSetNode.apply_hints n hints w = Ok w' -> Forall (Qle 0) w'.
Proof.
  revert w. induction hints as [|[hint val] hints IH]; intros w Hw H;
    simpl in H.
  - now injection H as <-.
  - unfold Py.assert in H.
    destruct (Qle_bool 0 val) eqn:Ev; cbn [Py.bind] in H; [|discriminate].
    apply Qle_bool_iff in Ev.
    destruct (CovaryingSetNode.combination_index n hint 0) as [ci|];
      cbn [Py.bind] in H; [|discriminate].
    destruct (CovaryingSetNode.setitem w ci val) as [w1|] eqn:E;
      cbn [Py.bind] in H; [|discriminate].
    eapply IH; [|exact H]. eapply setitem_nonneg; eassumption.
Qed.

Lemma Qsum_nonneg (w : list Q) : Forall (Qle 0) w -> (0 <= Qsum w)%Q.
Proof.
  induction 1 as [|x w Hx _ IH]; simpl; [apply Qle_refl|].
  replace 0%Q with (0 + 0)%Q by reflexivity. now apply Qplus_le_compat.
Qed.

(** X14.  Whenever the constructor returns, its weight tensor holds no
    nan: it is a list of non-negative rationals that sum to 1. *)
Theorem covarying_set_weights_on_simplex :
  forall (name : string) (rules : list rule) (hints : list (list Z * Q))
         (remaining_weight : Q) (node : CovaryingSetNode.t),
    CovaryingSetNode.__init__ name rules hints remaining_weight = Ok node ->
    exists probs : list Q,
      node.(CovaryingSetNode.exhaustive_set_weights) = map Some probs
      /\ Forall (Qle 0) probs
      /\ (Qsum probs == 1)%Q.
Proof.
  intros name rules hints rw node Hinit.
  destruct (covarying_set_constructed _ _ _ _ Hinit)
    as (w & Hrw & E & Es & ->).
  cbn [CovaryingSetNode.exhaustive_set_weights].
  assert (Hw : Forall (Qle 0) w).
  { eapply apply_hints_nonneg; [|exact E].
    apply Forall_forall. intros x Hx. apply repeat_spec in Hx. now subst. }
  unfold CovaryingSetNode.normalize. rewrite Es.
  exists (map (fun x => x / Qsum w)%Q w).
  assert (Hs : ~ (Qsum w == 0)%Q).
  { intros Hz. apply Qeq_bool_iff in Hz. congruence. }
  assert (Hpos : (0 < Qsum w)%Q).
  { pose proof (Qsum_nonneg Hw) as Hge.
    apply Qle_lteq in Hge as [Hlt | Heq]; [assumption|].
    exfalso. apply Hs. now symmetry. }
  split; [now rewrite map_map|]. split.
  - apply Forall_forall. intros y Hy.
    apply in_map_iff in Hy as (x & <- & Hx).
    rewrite Forall_forall in Hw. specialize (Hw x Hx).
    apply Qle_shift_div_l; [assumption|]. now rewrite Qmult_0_l.
  - rewrite Qsum_scaled. unfold Qdiv. now apply Qmult_inv_r.
Qed.

Lemma covarying_set_weights_on_simplex_witness :
  let weights :=
    [Some (0 # 4); Some (1 # 4); Some (0 # 4); Some (3 # 4); Some (0 # 4)]%Q in
  CovaryingSetNode.__init__ "setting" [0; 1]%nat
    [([0; 1]%Z, 3%Q); ([0]%Z, 1%Q)] 0
  = Ok (CovaryingSetNode.mk "setting" weights [0; 1]%nat)
  /\ exists probs : list Q,
       weights = map Some probs
       /\ Forall (Qle 0) probs
       /\ (Qsum probs == 1)%Q.
Proof.
  intros weights. split; [reflexivity|].
  exact (@covarying_set_weights_on_simplex "setting" [0; 1]%nat
           [([0; 1]%Z, 3%Q); ([0]%Z, 1%Q)] 0%Q
           (CovaryingSetNode.mk "setting" weights [0; 1]%nat) eq_refl).
Defined.













Lemma apply_hints_invalid (n : nat) (hints : list (list Z * Q)) :
  Exists (fun h => (snd h < 0)%Q
                   \/ Exists (fun i => i < 0 \/ Z.of_nat n <= i)%Z (fst h))
         hints ->
  forall w : list Q,
  exists e, CovaryingSetNode.apply_hints n hints w = Raise e
            /\ (e = AssertionError \/ e = IndexError).
Proof.
  induction 1 as [[hint val] hints Hbad | [hint val] hints _ IH];
    intros w; simpl; unfold Py.assert.
  - cbn [fst snd] in Hbad. destruct (Qle_bool 0 val) eqn:Ev; cbn [Py.bind].
    + destruct Hbad as [Hneg | Hidx].
      * apply Qle_bool_iff in Ev. exfalso.
        apply (Qlt_irrefl 0). eapply Qle_lt_trans; eassumption.
      * rewrite (@combination_index_out_of_range n hint 0 Hidx). cbn [Py.bind].
        exists AssertionError. tauto.
    + exists AssertionError. tauto.
  - destruct (Qle_bool 0 val); cbn [Py.bind];
      [|exists AssertionError; tauto].
    destruct (CovaryingSetNode.combination_index n hint 0) as [ci|e] eqn:Ec;
      cbn [Py.bind].
    + destruct (CovaryingSetNode.setitem w ci val) as [w1|e] eqn:Es;
        cbn [Py.bind]; [apply IH|].
      apply setitem_raises_index_error in Es. subst. exists IndexError. tauto.
    + apply combination_index_raises_assertion in Ec. subst.
      exists AssertionError. tauto.
Qed.

(** X16.  A negative remaining weight, a negative hint weight or a hint
    index outside [0, len(production_rules)) keeps the node from being
    constructed: the constructor raises [AssertionError], or
    [IndexError] when an earlier hint ran past the weight tensor. *)
Theorem covarying_set_rejects_invalid_arguments :
  forall (name : string) (rules : list rule) (hints : list (list Z * Q))
         (remaining_weight : Q),
    (remaining_weight < 0)%Q
    \/ Exists (fun h => (snd h < 0)%Q
                        \/ Exists (fun i => i < 0
                                            \/ Z.of_nat (List.length rules) <= i)%Z
                                  (fst h))
              hints ->
    exists e : exn,
      CovaryingSetNode.__init__ name rules hints remaining_weight = Raise e
      /\ (e = AssertionError \/ e = IndexError).
Proof.
  intros name rules hints rw H.
  unfold CovaryingSetNode.__init__, Py.assert.
  destruct (Qle_bool 0 rw) eqn:Erw; cbn [Py.bind].
  - destruct H as [Hneg | Hbad].
    + apply Qle_bool_iff in Erw. exfalso.
      apply (Qlt_irrefl 0). eapply Qle_lt_trans; eassumption.
    + cbv zeta.
      destruct (@apply_hints_invalid (List.length rules) hints Hbad
                  (repeat rw (2 ^ List.length rules + 1))) as (e & -> & He).
      cbn [Py.bind]. exists e. tauto.
  - exists AssertionError. tauto.
Qed.

Lemma covarying_set_rejects_invalid_arguments_witness :
  ((1 < 0)%Q
   \/ Exists (fun h => (snd h < 0)%Q
                       \/ Exists (fun i => i < 0
                                           \/ Z.of_nat (List.length [0; 1]%nat)
                                              <= i)%Z
                                 (fst h))
             [([0]%Z, 1%Q); ([2]%Z, 1%Q)])
  /\ exists e : exn,
       CovaryingSetNode.__init__ "node" [0; 1]%nat
         [([0]%Z, 1%Q); ([2]%Z, 1%Q)] 1 = Raise e
       /\ (e = AssertionError \/ e = IndexError).
Proof.
  assert (H : (1 < 0)%Q
   \/ Exists (fun h => (snd h < 0)%Q
                       \/ Exists (fun i => i < 0
                                           \/ Z.of_nat (List.length [0; 1]%nat)
                                              <= i)%Z
                                 (fst h))
             [([0]%Z, 1%Q); ([2]%Z, 1%Q)]).
  { right. apply Exists_cons_tl, Exists_cons_hd. right.
    apply Exists_cons_hd. simpl. lia. }
  split; [exact H|].
  exact (@covarying_set_rejects_invalid_arguments "node" [0; 1]%nat _ 1%Q H).
Defined.

End CovaryingConstruction.

(** ** Subsets of a set node's rules *)

Section SubsetRoundTrip.

Variable on_neg_inf : outcome (list rule).

Lemma contains_cons (r x : rule) (l : list rule) :
  Py.contains r (x :: l) = Nat.eqb r x || Py.contains r l.
Proof. reflexivity. Qed.

(** Setting the flag at the position of [r] in a list of flags laid out
    along the node's rules. *)
Lemma set_one_at_index (own : list rule) (g : rule -> bool) (r : rule)
  (k : nat) :
  NoDup own -> Py.index r own = Ok k ->
  IndependentSetNode.set_one (map g own) k
  = map (fun r' => g r' || Nat.eqb r' r) own.
Proof.
  intros Hnd. revert k. induction Hnd as [|y own Hy Hnd IH]; intros k Hk;
    simpl in Hk; [discriminate|].
  destruct (Nat.eqb y r) eqn:E.
  - injection Hk as <-. apply Nat.eqb_eq in E. subst y. simpl.
    rewrite Nat.eqb_refl, orb_true_r. f_equal.
    apply map_ext_in. intros r' Hr'.
    assert (Nat.eqb r' r = false) as ->.
    { apply Nat.eqb_neq. intros ->. contradiction. }
    now rewrite orb_false_r.
  - destruct (Py.index r own) as [k'|]; simpl in Hk; [|discriminate].
    injection Hk as <-. simpl. rewrite E, orb_false_r. f_equal.
    now apply IH.
Qed.

Lemma independent_recover_loop_flags (own : list rule) (obs : list rule) :
  NoDup own -> Forall (fun r => In r own) obs ->
  forall g : rule -> bool,
    IndependentSetNode.recover_loop own obs (map g own)
    = Ok (Selection (map (fun r' => g r' || Py.contains r' obs) own)).
Proof.
  intros Hnd. induction 1 as [|r obs Hr _ IH]; intros g; simpl.
  - do 2 f_equal. apply map_ext. intros r'.
    unfold Py.contains. simpl. now rewrite orb_false_r.
  - apply contains_In in Hr. rewrite Hr. cbn [negb].
    destruct (contains_true_index _ _ Hr) as (k & Hk & _).
    rewrite Hk. cbn [Py.bind].
    rewrite (@set_one_at_index own g r k Hnd Hk), IH.
    do 2 f_equal. apply map_ext. intros r'.
    unfold Py.contains. simpl. now rewrite <- orb_assoc.
Qed.

Lemma select_by_flags_map (own : list rule) (h : rule -> bool) :
  select_by_flags own (map h own) = Ok (filter h own).
Proof.
  induction own as [|r own IH]; simpl; [reflexivity|].
  rewrite IH. cbn [Py.bind]. now destruct (h r).
Qed.

Lemma repeat_false_map (l : list rule) :
  repeat false (List.length l) = map (fun _ : rule => false) l.
Proof. induction l as [|r l IH]; simpl; [reflexivity|now f_equal]. Qed.

(** X17.  Observed sampling of an IndependentSet node whose rules are
    pairwise distinct returns exactly the observed rules, in the node's
    order, for every observed list made of the node's rules. *)
Theorem independent_set_observed_subset_round_trip :
  forall (self : IndependentSetNode.t) (obs : list rule) (draw : list bool),
    NoDup self.(IndependentSetNode.production_rules) ->
    Forall (fun r => In r self.(IndependentSetNode.production_rules)) obs ->
    IndependentSetNode_sample_production_rules on_neg_inf self draw (Some obs)
    = Ok (filter (fun r => Py.contains r obs)
                 self.(IndependentSetNode.production_rules)).
Proof.
  intros self obs draw Hnd Hobs.
  unfold IndependentSetNode_sample_production_rules,
    IndependentSetNode._recover_selected_rules.
  replace (repeat false (List.length (IndependentSetNode.production_rules self)))
    with (map (fun _ : rule => false)
              (IndependentSetNode.production_rules self)).
  2:{ symmetry. apply repeat_false_map. }
  rewrite (@independent_recover_loop_flags _ obs Hnd Hobs).
  cbn [Py.bind pyro_sample].
  cbn [orb]. apply select_by_flags_map.
Qed.

End SubsetRoundTrip.

Lemma independent_set_observed_subset_round_trip_witness :
  let self := IndependentSetNode.mk "table" [0; 1; 2; 3]%nat
                [1 # 2; 1 # 2; 1 # 2; 1 # 2]%Q in
  NoDup self.(IndependentSetNode.production_rules)
  /\ Forall (fun r => In r self.(IndependentSetNode.production_rules))
            [3; 1]%nat
  /\ IndependentSetNode_sample_production_rules (Raise RuntimeError) self []
       (Some [3; 1]%nat)
     = Ok [1; 3]%nat.
Proof.
  intros self.
  assert (Hnd : NoDup self.(IndependentSetNode.production_rules)).
  { simpl. repeat constructor; simpl; intuition lia. }
  assert (Hobs : Forall (fun r => In r self.(IndependentSetNode.production_rules))
                        [3; 1]%nat).
  { repeat constructor; simpl; tauto. }
  split; [exact Hnd|]. split; [exact Hobs|].
  exact (@independent_set_observed_subset_round_trip (Raise RuntimeError)
           self [3; 1]%nat [] Hnd Hobs).
Defined.

Section CovaryingRoundTrip.

Variable on_neg_inf : outcome (list rule).

Lemma bit_set_testbit (s k : nat) : bit_set s k = Nat.testbit s k.
Proof.
  unfold bit_set.
  change 1%nat with (Nat.ones 1) at 1. rewrite Nat.land_ones.
  change (2 ^ 1)%nat with 2%nat. rewrite <- Nat.bit0_mod.
  rewrite Nat.shiftr_spec'. simpl (0 + k)%nat.
  now destruct (Nat.testbit s k).
Qed.

(** The bits of a sum of distinct powers of two are the exponents. *)
Lemma pow2_sum_testbit (ps : list nat) (k : nat) :
  NoDup ps ->
  Nat.testbit (list_sum (map (Nat.pow 2) ps)) k = existsb (Nat.eqb k) ps.
Proof.
  induction 1 as [|p ps Hp Hnd IH] in k |- *; simpl.
  - apply Nat.bits_0.
  - change (fold_right Nat.add 0%nat (map (Nat.pow 2) ps))
      with (list_sum (map (Nat.pow 2) ps)).
    assert (Hbit : Nat.testbit (list_sum (map (Nat.pow 2) ps)) p = false).
    { rewrite IH. apply not_true_is_false. intros H.
      apply existsb_exists in H as (x & Hx & E).
      apply Nat.eqb_eq in E. now subst. }
    rewrite Nat.add_nocarry_lxor.
    + rewrite Nat.lxor_spec, Nat.pow2_bits_eqb, IH.
      rewrite (Nat.eqb_sym k p).
      destruct (Nat.eqb p k) eqn:E; [|reflexivity].
      apply Nat.eqb_eq in E. subst k. rewrite <- IH, Hbit. reflexivity.
    + apply Nat.bits_inj_0. intros j.
      rewrite Nat.land_spec, Nat.pow2_bits_eqb.
      destruct (Nat.eqb p j) eqn:E; [|reflexivity].
      apply Nat.eqb_eq in E. subst j. now rewrite Hbit.
Qed.

(** The recovery loop adds the power of two of each rule's position. *)
Lemma covarying_recover_loop_sum (own obs : list rule) :
  Forall (fun r => In r own) obs ->
  forall acc : nat,
  exists ps : list nat,
    Forall2 (fun r p => Py.index r own = Ok p) obs ps
    /\ CovaryingSetNode.recover_loop own obs acc
       = Ok (Selection (acc + list_sum (map (Nat.pow 2) ps))%nat).
Proof.
  induction 1 as [|r obs Hr _ IH]; intros acc; simpl.
  - exists []. split; [constructor|]. simpl. do 2 f_equal. lia.
  - apply contains_In in Hr. rewrite Hr. cbn [negb].
    destruct (contains_true_index _ _ Hr) as (k & Hk & _).
    rewrite Hk. cbn [Py.bind].
    destruct (IH (acc + 2 ^ k)%nat) as (ps & Hps & ->).
    exists (k :: ps). split; [now constructor|].
    do 2 f_equal. simpl.
    change (fold_right Nat.add 0%nat (map (Nat.pow 2) ps))
      with (list_sum (map (Nat.pow 2) ps)).
    lia.
Qed.

Lemma positions_distinct (own obs : list rule) (ps : list nat) :
  Forall2 (fun r p => Py.index r own = Ok p) obs ps ->
  NoDup obs -> NoDup ps.
Proof.
  induction 1 as [|r p obs ps Hrp Hrest IH]; intros Hnd; [constructor|].
  inversion Hnd as [|? ? Hr Hnd']; subst.
  constructor; [|now apply IH].
  intros Hin. apply Hr. clear IH Hnd Hnd' Hr.
  induction Hrest as [|r' p' obs ps Hr'p' _ IH']; [contradiction|].
  destruct Hin as [-> | Hin].
  - left. apply index_nth_error in Hrp, Hr'p'. congruence.
  - right. now apply IH'.
Qed.

Lemma positions_in_range (own obs : list rule) (ps : list nat) :
  Forall2 (fun r p => Py.index r own = Ok p) obs ps ->
  Forall (fun p => p < List.length own)%nat ps.
Proof.
  induction 1 as [|r p obs ps Hrp _ IH]; constructor; [|assumption].
  apply index_nth_error in Hrp. apply nth_error_Some. congruence.
Qed.

Lemma position_observed (own obs : list rule) (ps : list nat) (j : nat)
  (r : rule) :
  NoDup own ->
  Forall2 (fun r p => Py.index r own = Ok p) obs ps ->
  nth_error own j = Some r ->
  existsb (Nat.eqb j) ps = Py.contains r obs.
Proof.
  intros Hnd Hps Hj. induction Hps as [|r' p obs ps Hr'p _ IH];
    [reflexivity|].
  rewrite contains_cons. cbn [existsb]. rewrite IH. f_equal.
  destruct (Nat.eqb r r') eqn:E.
  - apply Nat.eqb_eq in E. subst r'.
    rewrite (index_of_nth _ Hnd Hj) in Hr'p. injection Hr'p as <-.
    apply Nat.eqb_refl.
  - apply Nat.eqb_neq. intros ->. apply Nat.eqb_neq in E. apply E.
    apply index_nth_error in Hr'p. congruence.
Qed.

Lemma select_by_bits_filter (pre suf obs : list rule) (ps : list nat) :
  NoDup (pre ++ suf) -> NoDup ps ->
  Forall2 (fun r p => Py.index r (pre ++ suf) = Ok p) obs ps ->
  select_by_bits (List.length pre) suf (list_sum (map (Nat.pow 2) ps))
  = filter (fun r => Py.contains r obs) suf.
Proof.
  revert pre. induction suf as [|r suf IH]; intros pre Hnd Hps Hobs; simpl;
    [reflexivity|].
  rewrite bit_set_testbit, (pow2_sum_testbit _ Hps).
  rewrite (@position_observed (pre ++ r :: suf) obs ps (List.length pre) r
             Hnd Hobs).
  2:{ rewrite nth_error_app2 by lia. now rewrite Nat.sub_diag. }
  assert (Hrec : select_by_bits (S (List.length pre)) suf
                   (list_sum (map (Nat.pow 2) ps))
                 = filter (fun r0 => Py.contains r0 obs) suf).
  { replace (S (List.length pre)) with (List.length (pre ++ [r]))
      by (rewrite length_app; simpl; lia).
    apply IH; rewrite <- ?app_assoc; assumption. }
  now rewrite Hrec.
Qed.

(** X18.  Observed sampling of a constructed CovaryingSet node whose
    rules are pairwise distinct returns exactly the observed rules, in
    the node's order, for every repetition-free observed list made of
    the node's rules. *)
Theorem covarying_set_observed_subset_round_trip :
  forall (name : string) (rules : list rule) (hints : list (list Z * Q))
         (remaining_weight : Q) (self : CovaryingSetNode.t)
         (obs : list rule) (draw : nat),
    CovaryingSetNode.__init__ name rules hints remaining_weight = Ok self ->
    NoDup rules -> NoDup obs -> Forall (fun r => In r rules) obs ->
    CovaryingSetNode_sample_production_rules on_neg_inf self draw (Some obs)
    = Ok (filter (fun r => Py.contains r obs) rules).
Proof.
  intros name rules hints rw self obs draw Hinit Hnd Hobs_nd Hobs.
  pose proof (covarying_set_weights_length _ _ _ _ Hinit) as Hlen.
  assert (Hrules : self.(CovaryingSetNode.production_rules) = rules).
  { destruct (covarying_set_constructed _ _ _ _ Hinit) as (w & _ & _ & _ & ->).
    reflexivity. }
  unfold CovaryingSetNode_sample_production_rules,
    CovaryingSetNode._recover_selected_rules.
  rewrite Hrules.
  destruct (@covarying_recover_loop_sum rules obs Hobs 0%nat)
    as (ps & Hps & ->).
  cbn [Py.bind]. simpl (0 + _)%nat.
  pose proof (@positions_distinct rules obs ps Hps Hobs_nd) as Hps_nd.
  pose proof (@pow2_sum_bound (List.length rules) ps Hps_nd
                (@positions_in_range rules obs ps Hps)) as Hbound.
  unfold Py.assert.
  replace (list_sum (map (Nat.pow 2) ps)
           <=? List.length (CovaryingSetNode.exhaustive_set_weights self))%nat
    with true by (symmetry; apply Nat.leb_le; lia).
  cbn [Py.bind pyro_sample]. f_equal.
  apply (@select_by_bits_filter [] rules obs ps); assumption.
Qed.

End CovaryingRoundTrip.

Lemma covarying_set_observed_subset_round_trip_witness :
  CovaryingSetNode.__init__ "setting" [0; 1; 2]%nat [([0; 2]%Z, 1%Q)] 0
  = Ok (CovaryingSetNode.mk "setting"
          [Some (0 # 1); Some (0 # 1); Some (0 # 1); Some (0 # 1);
           Some (0 # 1); Some (1 # 1); Some (0 # 1); Some (0 # 1);
           Some (0 # 1)]%Q
          [0; 1; 2]%nat)
  /\ NoDup [0; 1; 2]%nat
  /\ NoDup [2; 0]%nat
  /\ Forall (fun r => In r [0; 1; 2]%nat) [2; 0]%nat
  /\ CovaryingSetNode_sample_production_rules (Raise RuntimeError)
       (CovaryingSetNode.mk "setting"
          [Some (0 # 1); Some (0 # 1); Some (0 # 1); Some (0 # 1);
           Some (0 # 1); Some (1 # 1); Some (0 # 1); Some (0 # 1);
           Some (0 # 1)]%Q
          [0; 1; 2]%nat)
       0 (Some [2; 0]%nat)
     = Ok [0; 2]%nat.
Proof.
  assert (H1 : NoDup [0; 1; 2]%nat)
    by (repeat constructor; simpl; intuition lia).
  assert (H2 : NoDup [2; 0]%nat)
    by (repeat constructor; simpl; intuition lia).
  assert (H3 : Forall (fun r => In r [0; 1; 2]%nat) [2; 0]%nat)
    by (repeat constructor; simpl; tauto).
  split; [reflexivity|]. split; [exact H1|]. split; [exact H2|].
  split; [exact H3|].
  exact (@covarying_set_observed_subset_round_trip (Raise RuntimeError)
           "setting" [0; 1; 2]%nat [([0; 2]%Z, 1%Q)] 0%Q _ [2; 0]%nat 0%nat
           eq_refl H1 H2 H3).
Defined.

(** ** More on the feasibility-projection constructor *)

Section ProjectionCoverage.

Import ProjectToFeasibilityDist.

Variable build : VectorizedEnvironments -> nat -> string -> outcome unit.

Variable oracle :
  VectorizedEnvironments -> Z -> Tensor -> nat -> Z -> list Q * list (list Q).

Lemma for_each_all_ok {A B : Type} (body : A -> outcome B) (f : A -> B)
  (l : list A) :
  (forall a, In a l -> body a = Ok (f a)) ->
  Py.for_each body l = Ok (map f l).
Proof.
  induction l as [|a l IH]; intros H; simpl; [reflexivity|].
  rewrite (H a) by now left. cbn [Py.bind].
  rewrite IH by (intros; apply H; now right). reflexivity.
Qed.

Lemma for_each_raises {A B : Type} (body : A -> outcome B) (e : exn)
  (l : list A) :
  (forall a, In a l -> body a = Raise e \/ exists b, body a = Ok b) ->
  (exists a, In a l /\ body a = Raise e) ->
  Py.for_each body l = Raise e.
Proof.
  induction l as [|a l IH]; intros Hall (x & Hin & Hx); [contradiction|].
  simpl. destruct (Hall a) as [Ha | (b & Ha)]; [now left| |].
  - now rewrite Ha.
  - rewrite Ha. cbn [Py.bind].
    rewrite IH; [reflexivity| |].
    + intros a' Ha'. apply Hall. now right.
    + destruct Hin as [<- | Hin]; [congruence|]. exists x. now split.
Qed.

Lemma for_each_forall2 {A B : Type} (body : A -> outcome B) (l : list A)
  (r : list B) :
  Py.for_each body l = Ok r -> Forall2 (fun a b => body a = Ok b) l r.
Proof.
  revert r. induction l as [|a l IH]; intros r H; simpl in H.
  - injection H as <-. constructor.
  - destruct (body a) as [b|] eqn:Eb; cbn [Py.bind] in H; [|discriminate].
    destruct (Py.for_each body l) as [bs|]; cbn [Py.bind] in H;
      [|discriminate].
    injection H as <-. constructor; [assumption|now apply IH].
Qed.

(** The checks of lines 55 to 70 pass on a batch that is not empty when
    [keep_going] and [classes] have one row per batch element and the
    tensor of class [class_i] has the batch size and the parameter count
    of the candidates. *)
Lemma tentative_generated_data_ok (pre : Tensor) (class_i : Z)
  (generated_data : VectorizedEnvironments) (n m objects : nat)
  (so_far : Tensor) :
  List.length pre.(data) = (n * m)%nat ->
  (0 < n)%nat ->
  List.length generated_data.(keep_going) = n ->
  List.length generated_data.(classes) = n ->
  (0 <= class_i)%Z ->
  nth_error generated_data.(params_by_class) (Z.to_nat class_i)
  = Some so_far ->
  so_far.(shape) = [n; objects; m] ->
  exists tentative,
    tentative_generated_data pre class_i generated_data n = Ok tentative.
Proof.
  intros Hdata Hn Hkg Hcl Hci Hnth Hshape.
  unfold tentative_generated_data, hstack_column.
  rewrite Hkg, Hcl, Nat.eqb_refl. cbn [Py.bind].
  assert (Hlt : (Z.to_nat class_i
                 < List.length generated_data.(params_by_class))%nat).
  { apply nth_error_Some. rewrite Hnth. discriminate. }
  unfold list_position.
  replace ((0 <=? class_i)%Z
           && (class_i <? Z.of_nat (List.length (params_by_class generated_data)))%Z)
    with true
    by (symmetry; apply andb_true_iff; split;
        [apply Z.leb_le | apply Z.ltb_lt]; lia).
  cbn [Py.bind]. unfold getitem. rewrite Hnth. cbn [Py.bind].
  unfold reshape_rows. rewrite Hdata.
  replace (n =? 0)%nat with false by (symmetry; apply Nat.eqb_neq; lia).
  replace ((n * m) mod n)%nat with 0%nat
    by (rewrite Nat.mul_comm; symmetry; apply Nat.Div0.mod_mul).
  cbn [Nat.eqb negb Py.bind].
  replace ((n * m) / n)%nat with m
    by (rewrite Nat.mul_comm; symmetry; apply Nat.div_mul; lia).
  unfold concatenate_axis1. rewrite Hshape. cbn [shape].
  rewrite !Nat.eqb_refl. cbn [andb Py.bind]. eexists. reflexivity.
Qed.

(** Stacking the column of zeros succeeds only on one keep-going row
    per batch element. *)
Lemma tentative_keep_going_rows (pre : Tensor) (class_i : Z)
  (generated_data tentative : VectorizedEnvironments) (n : nat) :
  tentative_generated_data pre class_i generated_data n = Ok tentative ->
  List.length generated_data.(keep_going) = n.
Proof.
  unfold tentative_generated_data, hstack_column.
  destruct (List.length (keep_going generated_data) =? n)%nat eqn:E;
    cbn [Py.bind]; [|discriminate].
  intros _. now apply Nat.eqb_eq.
Qed.

(** X19.  A parameter tensor without a batch dimension (a scalar or a
    plain vector) is rejected with [IndexError]: the batch shape is
    empty and its first entry is read. *)
Theorem unbatched_parameters_raise_index_error :
  forall (pre : Tensor) (class_i object_i : Z) (new_class : list Z)
         (generated_data : VectorizedEnvironments) (env : string),
    (List.length pre.(shape) <= 1)%nat ->
    ProjectToFeasibilityDist.__init__ build oracle pre class_i object_i
      new_class generated_data env = Raise IndexError.
Proof.
  intros pre class_i object_i new_class gd env H.
  unfold ProjectToFeasibilityDist.__init__.
  destruct (shape pre) as [|m [|m' rest]]; simpl in H; try lia; reflexivity.
Qed.

(** X20.  On a batch that passes the assembly of the tentative scenes
    (it is not empty, [keep_going] and [classes] have one row per batch
    element, and the tensor of class [class_i] has the batch size and
    the parameter count of the candidates), when no batch element has
    the candidate class the constructor returns without consulting the
    plant builder, the projection or the environment type: every stored
    row is the input row and every sensitivity matrix the identity. *)
Theorem no_matching_class_skips_every_projection :
  forall (pre : Tensor) (class_i object_i : Z) (new_class : list Z)
         (generated_data : VectorizedEnvironments) (env : string)
         (n m objects : nat) (so_far : Tensor),
    pre.(shape) = [n; m] ->
    List.length pre.(data) = (n * m)%nat ->
    (0 < n)%nat ->
    List.length generated_data.(keep_going) = n ->
    List.length generated_data.(classes) = n ->
    (0 <= class_i)%Z ->
    nth_error generated_data.(params_by_class) (Z.to_nat class_i)
    = Some so_far ->
    so_far.(shape) = [n; objects; m] ->
    (n <= List.length new_class)%nat ->
    Forall (fun c => c <> class_i) (firstn n new_class) ->
    ProjectToFeasibilityDist.__init__ build oracle pre class_i object_i
      new_class generated_data env
    = Ok (ProjectToFeasibilityDist.mk [n] [m]
            (map (row m pre) (seq 0 n)) (map (fun _ => eye m) (seq 0 n))).
Proof.
  intros pre class_i object_i new_class gd env n m objects so_far Hshape
         Hdata Hn Hkg Hcl Hci Hnth Hso_far Hlen Hne.
  destruct (@tentative_generated_data_ok pre class_i gd n m objects so_far
              Hdata Hn Hkg Hcl Hci Hnth Hso_far) as (tentative & Ht).
  unfold ProjectToFeasibilityDist.__init__. rewrite Hshape.
  cbn [init_segment removelast last_segment last List.length Nat.ltb Nat.leb
       getitem nth_error Py.bind].
  rewrite Ht. cbn [Py.bind].
  rewrite (for_each_all_ok _ (fun k => (row m pre k, eye m))).
  - cbn [Py.bind]. now rewrite !map_map.
  - intros k Hk. apply in_seq in Hk.
    unfold loop_body, getitem.
    destruct (nth_error new_class k) as [c|] eqn:Ec.
    + cbn [Py.bind].
      assert (Hc : c <> class_i).
      { rewrite Forall_forall in Hne. apply Hne.
        apply nth_error_In with (n := k).
        rewrite nth_error_firstn.
        replace (k <? n)%nat with true by (symmetry; apply Nat.ltb_lt; lia).
        exact Ec. }
      replace (class_i =? c)%Z with false
        by (symmetry; apply Z.eqb_neq; congruence).
      reflexivity.
    + apply nth_error_None in Ec. lia.
Qed.

(** A batch element of the candidate class that is due for projection
    makes the loop body raise when the environment type is not a
    supported one: the plant builder raises, or the test on the type
    does. *)
Lemma loop_body_unsupported (pre : Tensor) (class_i object_i : Z)
  (new_class : list Z) (generated_data : VectorizedEnvironments)
  (env : string) (tentative : VectorizedEnvironments) (m k : nat) :
  supported_environment env = false ->
  nth_error new_class k = Some class_i ->
  (object_i = 0%Z
   \/ exists kg, nth_error generated_data.(keep_going) k = Some kg
                 /\ all_nonzero kg = true) ->
  exists e : exn,
    loop_body build oracle pre class_i object_i new_class generated_data env
      tentative m k = Raise e
    /\ (build tentative k env = Ok tt -> e = NotImplementedError).
Proof.
  intros Henv Hclass Hproceed.
  unfold loop_body, getitem. rewrite Hclass. cbn [Py.bind].
  rewrite Z.eqb_refl.
  assert (Hgo : (if (object_i =? 0)%Z then Ok true
                 else kg <- match nth_error (keep_going generated_data) k with
                            | Some a => Ok a
                            | None => Raise IndexError
                            end ;; Ok (all_nonzero kg)) = Ok true).
  { destruct Hproceed as [-> | (kg & Hkgk & Hall)]; [reflexivity|].
    destruct (object_i =? 0)%Z; [reflexivity|].
    rewrite Hkgk. cbn [Py.bind]. now rewrite Hall. }
  rewrite Hgo. cbn [Py.bind]. rewrite Henv.
  destruct (build tentative k env) as [[]|e]; cbn [Py.bind].
  - exists NotImplementedError. now split.
  - exists e. split; [reflexivity|discriminate].
Qed.

(** X21.  With an environment type other than "planar_bin" and
    "planar_tabletop", the constructor returns no distribution as soon
    as one batch element has the candidate class and is due for
    projection: it raises.  When the tentative scenes are assembled, the
    plant builder returns for that environment type and [new_class]
    covers the batch, what it raises is [NotImplementedError]. *)
Theorem unsupported_environment_raises :
  forall (pre : Tensor) (class_i object_i : Z) (new_class : list Z)
         (generated_data : VectorizedEnvironments) (env : string)
         (n m k : nat),
    pre.(shape) = [n; m] ->
    supported_environment env = false ->
    (k < n)%nat ->
    nth_error new_class k = Some class_i ->
    (object_i = 0%Z
     \/ exists kg, nth_error generated_data.(keep_going) k = Some kg
                   /\ all_nonzero kg = true) ->
    (exists e : exn,
       ProjectToFeasibilityDist.__init__ build oracle pre class_i object_i
         new_class generated_data env = Raise e)
    /\ ((exists tentative,
           tentative_generated_data pre class_i generated_data n
           = Ok tentative) ->
        (forall tentative j, build tentative j env = Ok tt) ->
        (n <= List.length new_class)%nat ->
        ProjectToFeasibilityDist.__init__ build oracle pre class_i object_i
          new_class generated_data env = Raise NotImplementedError).
Proof.
  intros pre class_i object_i new_class gd env n m k Hshape Henv Hk Hclass
         Hproceed.
  assert (Hnth : nth_error (seq 0 n) k = Some k).
  { rewrite nth_error_nth' with (d := 0%nat) by now rewrite length_seq.
    now rewrite seq_nth. }
  split.
  - destruct (ProjectToFeasibilityDist.__init__ build oracle pre class_i
                object_i new_class gd env) as [d|e] eqn:Einit;
      [exfalso|now exists e].
    destruct (@init_returns build oracle pre class_i object_i new_class gd
                env d n m Hshape Einit)
      as (tentative & results & _ & Eloop & _).
    destruct (for_each_nth_error _ _ _ Eloop Hnth) as (res & Hbody & _).
    destruct (@loop_body_unsupported pre class_i object_i new_class gd env
                tentative m k Henv Hclass Hproceed) as (e & He & _).
    congruence.
  - intros (tentative & Ht) Hbuild Hlen.
    pose proof (@tentative_keep_going_rows pre class_i gd tentative n Ht)
      as Hkg.
    unfold ProjectToFeasibilityDist.__init__. rewrite Hshape.
    cbn [init_segment removelast last_segment last List.length Nat.ltb
         Nat.leb getitem nth_error Py.bind].
    rewrite Ht. cbn [Py.bind].
    rewrite (@for_each_raises _ _ _ NotImplementedError); [reflexivity| |].
    + intros j Hj. apply in_seq in Hj. unfold loop_body, getitem.
      destruct (nth_error new_class j) as [c|] eqn:Ec;
        [|apply nth_error_None in Ec; lia].
      cbn [Py.bind]. destruct (class_i =? c)%Z; [|right; eexists; reflexivity].
      destruct (object_i =? 0)%Z; cbn [Py.bind].
      * rewrite Hbuild, Henv. now left.
      * destruct (nth_error (keep_going gd) j) as [kg|] eqn:Ekg;
          [|apply nth_error_None in Ekg; lia].
        cbn [Py.bind]. destruct (all_nonzero kg).
        -- rewrite Hbuild, Henv. now left.
        -- right. eexists. reflexivity.
    + exists k. split; [apply in_seq; lia|].
      destruct (@loop_body_unsupported pre class_i object_i new_class gd env
                  tentative m k Henv Hclass Hproceed) as (e & He & Hnie).
      rewrite He. f_equal. apply Hnie, Hbuild.
Qed.

(** X22.  Whenever the constructor returns, a batch element of the
    candidate class that is due for projection ([object_i] is 0 or its
    keep-going row has no zero) stores the projected configuration in
    its first three parameters, the input row behind them, and the
    projection's sensitivity rows over the identity; the environment
    type is then a supported one and a row has at least three
    parameters. *)
Theorem projected_element_stores_projection :
  forall (pre : Tensor) (class_i object_i : Z) (new_class : list Z)
         (generated_data : VectorizedEnvironments) (env : string)
         (d : ProjectToFeasibilityDist.t) (n m k : nat),
    pre.(shape) = [n; m] ->
    ProjectToFeasibilityDist.__init__ build oracle pre class_i object_i
      new_class generated_data env = Ok d ->
    (k < n)%nat ->
    nth_error new_class k = Some class_i ->
    (object_i = 0%Z
     \/ exists kg, nth_error generated_data.(keep_going) k = Some kg
                   /\ all_nonzero kg = true) ->
    let projection := oracle generated_data class_i pre k object_i in
    supported_environment env = true
    /\ (3 <= m)%nat
    /\ nth_error d.(all_params) k
       = Some (overwrite_prefix (fst projection) (row m pre k))
    /\ nth_error d.(all_params_derivatives) k
       = Some (overwrite_rows (snd projection) (eye m)).
Proof.
  intros pre class_i object_i new_class gd env d n m k Hshape Hinit Hk Hclass
         Hproceed projection.
  destruct (@init_returns build oracle pre class_i object_i new_class gd env
              d n m Hshape Hinit) as (tentative & results & _ & Eloop & ->).
  cbn [all_params all_params_derivatives].
  assert (Hnth : nth_error (seq 0 n) k = Some k).
  { rewrite nth_error_nth' with (d := 0%nat) by now rewrite length_seq.
    now rewrite seq_nth. }
  destruct (for_each_nth_error _ _ _ Eloop Hnth) as (res & Hbody & Hres).
  unfold loop_body, getitem in Hbody. rewrite Hclass in Hbody.
  cbn [Py.bind] in Hbody. rewrite Z.eqb_refl in Hbody.
  assert (Hgo : (if (object_i =? 0)%Z then Ok true
                 else kg <- match nth_error (keep_going gd) k with
                            | Some a => Ok a
                            | None => Raise IndexError
                            end ;; Ok (all_nonzero kg)) = Ok true).
  { destruct Hproceed as [-> | (kg & Hkgk & Hall)]; [reflexivity|].
    destruct (object_i =? 0)%Z; [reflexivity|].
    rewrite Hkgk. cbn [Py.bind]. now rewrite Hall. }
  rewrite Hgo in Hbody. cbn [Py.bind] in Hbody.
  destruct (build tentative k env); cbn [Py.bind] in Hbody; [|discriminate].
  destruct (supported_environment env); [|discriminate].
  destruct (m <? 3)%nat eqn:Em; [discriminate|].
  apply Nat.ltb_ge in Em.
  fold projection in Hbody. destruct projection as [qf dqf].
  injection Hbody as <-.
  rewrite !nth_error_map, Hres. cbn [option_map fst snd]. auto.
Qed.

End ProjectionCoverage.

Lemma unbatched_parameters_raise_index_error_witness :
  (List.length (ProjectToFeasibilityDist.shape
                  (ProjectToFeasibilityDist.mkTensor [3%nat] [1; 2; 3]%Q))
   <= 1)%nat
  /\ ProjectToFeasibilityDist.__init__ Examples.plant_builds
       Examples.constant_projection
       (ProjectToFeasibilityDist.mkTensor [3%nat] [1; 2; 3]%Q) 0 0 [0]%Z
       Examples.scenes_so_far "planar_bin"
     = Raise IndexError.
Proof.
  split; [simpl; lia|].
  apply unbatched_parameters_raise_index_error. simpl. lia.
Defined.

Lemma no_matching_class_skips_every_projection_witness :
  let so_far :=
    ProjectToFeasibilityDist.mkTensor [3; 1; 3]%nat
      [1; 1; 0; 2; 1; 0; 3; 1; 0]%Q in
  ProjectToFeasibilityDist.shape Examples.candidates = [3; 3]%nat
  /\ List.length (ProjectToFeasibilityDist.data Examples.candidates)
     = (3 * 3)%nat
  /\ (0 < 3)%nat
  /\ List.length (ProjectToFeasibilityDist.keep_going Examples.scenes_so_far)
     = 3%nat
  /\ List.length (ProjectToFeasibilityDist.classes Examples.scenes_so_far)
     = 3%nat
  /\ (0 <= 0)%Z
  /\ nth_error
       (ProjectToFeasibilityDist.params_by_class Examples.scenes_so_far)
       (Z.to_nat 0) = Some so_far
  /\ ProjectToFeasibilityDist.shape so_far = [3; 1; 3]%nat
  /\ (3 <= List.length [1; 1; 2]%Z)%nat
  /\ Forall (fun c => c <> 0%Z) (firstn 3 [1; 1; 2]%Z)
  /\ ProjectToFeasibilityDist.__init__ Examples.plant_builds
       Examples.constant_projection Examples.candidates 0 0 [1; 1; 2]%Z
       Examples.scenes_so_far "dish_bin"
     = Ok (ProjectToFeasibilityDist.mk [3%nat] [3%nat]
             (map (ProjectToFeasibilityDist.row 3 Examples.candidates)
                  (seq 0 3))
             (map (fun _ => ProjectToFeasibilityDist.eye 3) (seq 0 3))).
Proof.
  intros so_far.
  assert (H : Forall (fun c => c <> 0%Z) (firstn 3 [1; 1; 2]%Z))
    by (repeat constructor; discriminate).
  split; [reflexivity|]. split; [reflexivity|]. split; [lia|].
  split; [reflexivity|]. split; [reflexivity|]. split; [lia|].
  split; [reflexivity|]. split; [reflexivity|]. split; [simpl; lia|].
  split; [exact H|].
  apply (@no_matching_class_skips_every_projection Examples.plant_builds
           Examples.constant_projection Examples.candidates 0 0 [1; 1; 2]%Z
           Examples.scenes_so_far "dish_bin" 3 3 1 so_far);
    try reflexivity; try lia; try exact H; simpl; lia.
Defined.

Lemma unsupported_environment_raises_witness :
  ProjectToFeasibilityDist.shape Examples.candidates = [3; 3]%nat
  /\ ProjectToFeasibilityDist.supported_environment "dish_bin" = false
  /\ (2 < 3)%nat
  /\ nth_error [1; 1; 0]%Z 2 = Some 0%Z
  /\ (exists e : exn,
        ProjectToFeasibilityDist.__init__ Examples.plant_builds
          Examples.constant_projection Examples.candidates 0 0 [1; 1; 0]%Z
          Examples.scenes_so_far "dish_bin" = Raise e)
  /\ ProjectToFeasibilityDist.__init__ Examples.plant_builds
       Examples.constant_projection Examples.candidates 0 0 [1; 1; 0]%Z
       Examples.scenes_so_far "dish_bin"
     = Raise NotImplementedError.
Proof.
  assert (Hk : (2 < 3)%nat) by lia.
  pose proof (@unsupported_environment_raises Examples.plant_builds
                Examples.constant_projection Examples.candidates 0 0
                [1; 1; 0]%Z Examples.scenes_so_far "dish_bin" 3 3 2
                eq_refl eq_refl Hk eq_refl (or_introl eq_refl))
    as [Hraises Hnie].
  split; [reflexivity|]. split; [reflexivity|]. split; [exact Hk|].
  split; [reflexivity|]. split; [exact Hraises|].
  apply Hnie.
  - eexists. reflexivity.
  - reflexivity.
  - simpl. lia.
Defined.

Lemma projected_element_stores_projection_witness :
  let d := ProjectToFeasibilityDist.mk [3%nat] [3%nat]
             [[7; 7; 7]; [4; 5; 6]; [7; 8; 9]]%Q
             [[[0; 0; 0]; [0; 0; 0]; [0; 0; 0]];
              ProjectToFeasibilityDist.eye 3;
              ProjectToFeasibilityDist.eye 3]%Q in
  ProjectToFeasibilityDist.__init__ Examples.plant_builds
    Examples.constant_projection Examples.candidates 0 1 [0; 1; 0]%Z
    Examples.scenes_so_far "planar_bin"
  = Ok d
  /\ ProjectToFeasibilityDist.supported_environment "planar_bin" = true
  /\ (3 <= 3)%nat
  /\ nth_error d.(ProjectToFeasibilityDist.all_params) 0
     = Some [7; 7; 7]%Q
  /\ nth_error d.(ProjectToFeasibilityDist.all_params_derivatives) 0
     = Some [[0; 0; 0]; [0; 0; 0]; [0; 0; 0]]%Q.
Proof.
  intros d. split; [reflexivity|].
  apply (@projected_element_stores_projection Examples.plant_builds
           Examples.constant_projection Examples.candidates 0 1 [0; 1; 0]%Z
           Examples.scenes_so_far "planar_bin" d 3 3 0);
    try reflexivity; try lia.
  right. exists [1%Q]. split; reflexivity.
Defined.

(** ** Formatting and the rules of a table *)

Lemma zero_fill_uint (count : nat) (d : uint) :
  zero_fill count (NilEmpty.string_of_uint d)
  = NilEmpty.string_of_uint (Nat.iter count D0 d).
Proof. induction count as [|c IH]; simpl; [reflexivity|now rewrite IH]. Qed.

Lemma of_uint_leading_zeros (count : nat) (d : uint) :
  Nat.of_uint (Nat.iter count D0 d) = Nat.of_uint d.
Proof. induction count as [|c IH]; simpl; [reflexivity|exact IH]. Qed.

(** Zero-filled decimal formatting never maps two numbers to one
    string, whatever the width. *)
Lemma format_d_injective (width k k' : nat) :
  format_d width k = format_d width k' -> k = k'.
Proof.
  unfold format_d. rewrite !zero_fill_uint. intros H.
  apply (f_equal NilEmpty.uint_of_string) in H.
  rewrite !NilEmpty.usu in H. injection H as H.
  apply (f_equal Nat.of_uint) in H.
  rewrite !of_uint_leading_zeros, !Unsigned.of_to in H. exact H.
Qed.

Lemma append_inv_head (s a b : string) :
  (s ++ a)%string = (s ++ b)%string -> a = b.
Proof.
  induction s as [|c s IH]; simpl; intros H; [exact H|].
  injection H as H. now apply IH.
Qed.

Lemma list_ascii_of_append (a b : string) :
  list_ascii_of_string (a ++ b)
  = (list_ascii_of_string a ++ list_ascii_of_string b)%list.
Proof. induction a as [|c a IH]; simpl; [reflexivity|now rewrite IH]. Qed.

Lemma append_inv_tail (s a b : string) :
  (a ++ s)%string = (b ++ s)%string -> a = b.
Proof.
  intros H. apply (f_equal list_ascii_of_string) in H.
  rewrite !list_ascii_of_append in H. apply app_inv_tail in H.
  apply (f_equal string_of_list_ascii) in H.
  now rewrite !string_of_list_ascii_of_string in H.
Qed.

Section TableProperties.
Local Open Scope R_scope.

(** X23.  A table is always constructed, with one rule per place-setting
    location; the names of its rules are pairwise distinct, and so are
    the names of the sample sites the rules use. *)
Theorem table_rule_names_distinct :
  forall (name : string) (num_place_setting_locations : nat)
         (table_radius : R),
  exists table : TableNode.t,
    TableNode.__init__ name num_place_setting_locations table_radius
    = Ok table
    /\ List.length table.(TableNode.rules) = num_place_setting_locations
    /\ IndependentSetNode.production_rules table.(TableNode.node)
       = seq 0 num_place_setting_locations
    /\ NoDup (map Table.PlaceSettingProductionRule.name
                  table.(TableNode.rules))
    /\ NoDup (map (fun rule =>
                     (Table.PlaceSettingProductionRule.name rule
                      ++ "_place_setting_offset")%string)
                  table.(TableNode.rules)).
Proof.
  intros name n radius. unfold TableNode.__init__.
  unfold IndependentSetNode.__init__.
  rewrite length_map, length_seq, repeat_length, length_seq, Nat.eqb_refl.
  cbn [negb Py.bind]. eexists. split; [reflexivity|].
  cbn [TableNode.rules TableNode.node IndependentSetNode.production_rules].
  rewrite length_map, length_seq. split; [reflexivity|].
  split; [reflexivity|].
  assert (Hnames : NoDup (map Table.PlaceSettingProductionRule.name
                            (map (TableNode.place_setting_rule name n radius)
                                 (seq 0 n)))).
  { rewrite map_map. cbn [TableNode.place_setting_rule
                            Table.PlaceSettingProductionRule.name].
    generalize (seq_NoDup n 0). generalize (seq 0 n) as ks.
    induction ks as [|k ks IH]; intros Hnd; simpl; [constructor|].
    inversion Hnd as [|? ? Hk Hnd']; subst.
    constructor; [|now apply IH].
    intros Hin. apply in_map_iff in Hin as (k' & E & Hk').
    apply append_inv_head in E. injection E as E.
    apply format_d_injective in E. now subst. }
  split; [exact Hnames|].
  rewrite <- (map_map Table.PlaceSettingProductionRule.name
                (fun s => (s ++ "_place_setting_offset")%string)).
  revert Hnames.
  generalize (map Table.PlaceSettingProductionRule.name
                (map (TableNode.place_setting_rule name n radius) (seq 0 n)))
    as names.
  induction names as [|s names IH]; intros Hnd; simpl; [constructor|].
  inversion Hnd as [|? ? Hs Hnd']; subst.
  constructor; [|now apply IH].
  intros Hin. apply in_map_iff in Hin as (s' & E & Hs').
  apply append_inv_tail in E. now subst.
Qed.

(** X24.  Every rule of a table has its heading equal to the polar
    angle 2 pi k / n of its location, and chaining its pose onto the
    table's pose lands at distance [table_radius] from the table centre
    (1/2, 1/2). *)
Theorem table_rules_lie_on_circle :
  forall (name : string) (num_place_setting_locations : nat)
         (table_radius : R) (table : TableNode.t) (k : nat)
         (rule : Table.PlaceSettingProductionRule.t),
    TableNode.__init__ name num_place_setting_locations table_radius
    = Ok table ->
    nth_error table.(TableNode.rules) k = Some rule ->
    let in_world :=
      chain_pose_transforms table.(TableNode.pose)
        (Table.PlaceSettingProductionRule.pose rule) in
    (k < num_place_setting_locations)%nat
    /\ p2_theta (Table.PlaceSettingProductionRule.pose rule)
       = INR k / INR num_place_setting_locations * PI * 2
    /\ p2_theta in_world
       = p2_theta (Table.PlaceSettingProductionRule.pose rule)
    /\ (p2_x in_world - 1 / 2) * (p2_x in_world - 1 / 2)
       + (p2_y in_world - 1 / 2) * (p2_y in_world - 1 / 2)
       = table_radius * table_radius.
Proof.
  intros name n radius table k rule Hinit Hrule.
  unfold TableNode.__init__, IndependentSetNode.__init__ in Hinit.
  rewrite length_map, length_seq, repeat_length, length_seq, Nat.eqb_refl
    in Hinit.
  cbn [negb Py.bind] in Hinit. injection Hinit as <-.
  cbn [TableNode.rules TableNode.pose] in *.
  rewrite nth_error_map in Hrule.
  destruct (nth_error (seq 0 n) k) as [j|] eqn:Ej; [|discriminate].
  assert (Hk : (k < n)%nat).
  { assert (H : nth_error (seq 0 n) k <> None) by congruence.
    apply nth_error_Some in H. now rewrite length_seq in H. }
  assert (j = k).
  { rewrite nth_error_nth' with (d := 0%nat) in Ej by now rewrite length_seq.
    rewrite seq_nth in Ej by assumption. now injection Ej as <-. }
  subst j. cbn [option_map] in Hrule. injection Hrule as <-.
  cbv zeta. unfold TableNode.place_setting_rule, chain_pose_transforms.
  cbn [Table.PlaceSettingProductionRule.pose p2_x p2_y p2_theta].
  rewrite cos_0, sin_0.
  set (r := INR k / INR n * PI * 2).
  split; [exact Hk|]. split; [reflexivity|]. split; [ring|].
  pose proof (sin2_cos2 r) as H. unfold Rsqr in H.
  replace ((1 / 2 + radius * cos r * 1 - radius * sin r * 0 - 1 / 2)
           * (1 / 2 + radius * cos r * 1 - radius * sin r * 0 - 1 / 2)
           + (1 / 2 + radius * cos r * 0 + radius * sin r * 1 - 1 / 2)
             * (1 / 2 + radius * cos r * 0 + radius * sin r * 1 - 1 / 2))
    with (radius * radius * (sin r * sin r + cos r * cos r)) by field.
  rewrite H. ring.
Qed.

End TableProperties.

Lemma table_rules_lie_on_circle_witness :
  exists table rule,
    TableNode.__init__ "table" 4 (9 / 20) = Ok table
    /\ nth_error table.(TableNode.rules) 1 = Some rule
    /\ (1 < 4)%nat
    /\ p2_theta (Table.PlaceSettingProductionRule.pose rule)
       = (INR 1 / INR 4 * PI * 2)%R
    /\ p2_theta (chain_pose_transforms table.(TableNode.pose)
                   (Table.PlaceSettingProductionRule.pose rule))
       = p2_theta (Table.PlaceSettingProductionRule.pose rule)
    /\ ((p2_x (chain_pose_transforms table.(TableNode.pose)
                 (Table.PlaceSettingProductionRule.pose rule)) - 1 / 2)
        * (p2_x (chain_pose_transforms table.(TableNode.pose)
                   (Table.PlaceSettingProductionRule.pose rule)) - 1 / 2)
        + (p2_y (chain_pose_transforms table.(TableNode.pose)
                   (Table.PlaceSettingProductionRule.pose rule)) - 1 / 2)
          * (p2_y (chain_pose_transforms table.(TableNode.pose)
                     (Table.PlaceSettingProductionRule.pose rule)) - 1 / 2)
        = 9 / 20 * (9 / 20))%R.
Proof.
  eexists. eexists.
  split; [reflexivity|]. split; [reflexivity|].
  exact (@table_rules_lie_on_circle "table" 4 (9 / 20)%R _ 1%nat _
           eq_refl eq_refl).
Defined.

(** ** Scene records *)

Section SceneRecords.

Import Yaml.

Lemma get_app (d e : dict) (key : string) :
  get (d ++ e) key
  = match get d key with
    | Some v => Some v
    | None => get e key
    end.
Proof.
  induction d as [|[k v] d IH]; simpl; [reflexivity|].
  now destruct (String.eqb k key).
Qed.

Lemma set_absent (d : dict) (key : string) (v : value) :
  get d key = None -> set d key v = (d ++ [(key, v)])%list.
Proof.
  induction d as [|[k v'] d IH]; simpl; intros H; [reflexivity|].
  destruct (String.eqb k key); [discriminate|]. now rewrite IH.
Qed.

Lemma set_present (d rest : dict) (key : string) (v v' : value) :
  get d key = None ->
  set (d ++ (key, v) :: rest) key v' = (d ++ (key, v') :: rest)%list.
Proof.
  induction d as [|[k w] d IH]; simpl; intros H.
  - now rewrite String.eqb_refl.
  - destruct (String.eqb k key); [discriminate|]. now rewrite IH.
Qed.

Lemma object_key_injective (j k : nat) : object_key j = object_key k -> j = k.
Proof.
  unfold object_key. intros H. apply append_inv_head in H.
  now apply format_d_injective in H.
Qed.

Lemma object_key_eqb (j k : nat) :
  String.eqb (object_key j) (object_key k) = Nat.eqb j k.
Proof.
  destruct (String.eqb_spec (object_key j) (object_key k)) as [E | E].
  - apply object_key_injective in E. subst. now rewrite Nat.eqb_refl.
  - symmetry. apply Nat.eqb_neq. intros ->. now apply E.
Qed.

Lemma count_key_is_no_object_key (k : nat) :
  String.eqb "n_objects" (object_key k) = false.
Proof. reflexivity. Qed.

Lemma get_entries_outside (k j : nat) (node_list : list terminal) :
  (j < k \/ k + List.length node_list <= j)%nat ->
  get (entries k node_list) (object_key j) = None.
Proof.
  revert k. induction node_list as [|node rest IH]; intros k Hj;
    [reflexivity|].
  cbn [entries get]. rewrite object_key_eqb.
  simpl in Hj.
  replace (Nat.eqb k j) with false by (symmetry; apply Nat.eqb_neq; lia).
  apply IH. lia.
Qed.

Lemma get_entries (k i : nat) (node_list : list terminal) (node : terminal) :
  nth_error node_list i = Some node ->
  get (entries k node_list) (object_key (k + i))
  = Some (Obj (generate_yaml node)).
Proof.
  revert k i. induction node_list as [|n rest IH]; intros k i Hi.
  - destruct i; discriminate.
  - cbn [entries get]. rewrite object_key_eqb.
    destruct i as [|i]; simpl in Hi.
    + injection Hi as ->. now rewrite Nat.add_0_r, Nat.eqb_refl.
    + replace (Nat.eqb k (k + S i)) with false
        by (symmetry; apply Nat.eqb_neq; lia).
      replace (k + S i)%nat with (S k + i)%nat by lia. now apply IH.
Qed.

(** The conversion loop appends one entry per node when the
    dictionary holds none of the keys still to be written. *)
Lemma add_objects_entries (node_list : list terminal) :
  forall (env : dict) (k : nat),
    (forall j, (k <= j)%nat -> get env (object_key j) = None) ->
    add_objects env k node_list = (env ++ entries k node_list)%list.
Proof.
  induction node_list as [|node rest IH]; intros env k Hfree;
    cbn [add_objects entries].
  - now rewrite app_nil_r.
  - rewrite set_absent by (apply Hfree; lia).
    rewrite IH.
    + now rewrite <- app_assoc.
    + intros j Hj. rewrite get_app, Hfree by lia. cbn [get].
      rewrite object_key_eqb.
      now replace (Nat.eqb k j) with false
        by (symmetry; apply Nat.eqb_neq; lia).
Qed.

Lemma convert_entries (node_list : list terminal) :
  convert_list_of_terminal_nodes_to_yaml_env node_list
  = ("n_objects"%string, Int (List.length node_list)) :: entries 0 node_list.
Proof.
  unfold convert_list_of_terminal_nodes_to_yaml_env.
  rewrite add_objects_entries; [reflexivity|].
  intros j _. reflexivity.
Qed.

Lemma entries_length (k : nat) (node_list : list terminal) :
  List.length (entries k node_list) = List.length node_list.
Proof.
  revert k. induction node_list as [|n rest IH]; intros k; simpl;
    [reflexivity|now rewrite IH].
Qed.

(** X25.  The scene record of a list of terminal nodes holds the node
    count under "n_objects" and the yaml of the [k]-th node under
    "obj_%04d" % k, for every position [k]; no two nodes share a key,
    so the record has one entry per node besides the count, and no
    object key past the last node. *)
Theorem scene_record_holds_every_node :
  forall node_list : list terminal,
    let env := convert_list_of_terminal_nodes_to_yaml_env node_list in
    get env "n_objects" = Some (Int (List.length node_list))
    /\ List.length env = S (List.length node_list)
    /\ (forall k node,
          nth_error node_list k = Some node ->
          get env (object_key k) = Some (Obj (generate_yaml node)))
    /\ (forall k, (List.length node_list <= k)%nat ->
                  get env (object_key k) = None).
Proof.
  intros node_list env. subst env. rewrite convert_entries.
  split; [reflexivity|]. split; [simpl; now rewrite entries_length|].
  split.
  - intros k node Hk. cbn [get]. rewrite count_key_is_no_object_key.
    now apply (@get_entries 0 k).
  - intros k Hk. cbn [get]. rewrite count_key_is_no_object_key.
    apply get_entries_outside. lia.
Qed.

End SceneRecords.

Section SceneRotation.

Import Yaml.
Local Open Scope R_scope.

Lemma rotated_yaml (r : R) (node : terminal) :
  mkObject (class (generate_yaml node)) (img_path (generate_yaml node))
           (params (generate_yaml node)) (params_names (generate_yaml node))
           (rotate_pose (pose (generate_yaml node)) r)
  = generate_yaml (rotate_terminal r node).
Proof. destruct node as [[] p]; reflexivity. Qed.

Lemma rotate_objects_entries (r : R) (node_list : list terminal) :
  forall (done : dict) (k : nat),
    (forall j, (k <= j)%nat -> get done (object_key j) = None) ->
    rotate_objects (done ++ entries k node_list) r k (List.length node_list)
    = inr (done ++ entries k (map (rotate_terminal r) node_list))%list.
Proof.
  induction node_list as [|node rest IH]; intros done k Hfree;
    cbn [List.length rotate_objects entries map]; [reflexivity|].
  rewrite get_app, Hfree by lia. cbn [get]. rewrite String.eqb_refl.
  rewrite set_present by (apply Hfree; lia).
  rewrite rotated_yaml.
  replace (done ++ (object_key k, Obj (generate_yaml (rotate_terminal r node)))
                   :: entries (S k) rest)%list
    with ((done ++ [(object_key k,
                     Obj (generate_yaml (rotate_terminal r node)))])
          ++ entries (S k) rest)%list
    by (now rewrite <- app_assoc).
  rewrite IH.
  - now rewrite <- app_assoc.
  - intros j Hj. rewrite get_app, Hfree by lia. cbn [get].
    rewrite object_key_eqb.
    now replace (Nat.eqb k j) with false
      by (symmetry; apply Nat.eqb_neq; lia).
Qed.

(** X26.  Rotating the scene record of a list of terminal nodes raises
    nothing and yields the scene record of the rotated nodes: every
    object is found under its key and updated in place. *)
Theorem rotate_yaml_env_of_scene_record :
  forall (node_list : list terminal) (r : R),
    rotate_yaml_env (convert_list_of_terminal_nodes_to_yaml_env node_list) r
    = inr (convert_list_of_terminal_nodes_to_yaml_env
             (map (rotate_terminal r) node_list)).
Proof.
  intros node_list r. rewrite !convert_entries, length_map.
  unfold rotate_yaml_env. cbn [get]. rewrite String.eqb_refl.
  apply (@rotate_objects_entries r node_list
           [("n_objects"%string, Int (List.length node_list))] 0%nat).
  intros j _. cbn [get]. now rewrite count_key_is_no_object_key.
Qed.

(** X27.  The pose update of [rotate_yaml_env] keeps an object at its
    distance from the rotation origin (1/2, 1/2), brings the heading
    into [0, 2 pi) by a whole number of turns, and is undone, for the
    position, by the rotation through the opposite angle. *)
Theorem rotate_pose_is_a_rotation :
  forall (p : Pose2) (r : R),
    let q := rotate_pose p r in
    (p2_x q - 1 / 2) * (p2_x q - 1 / 2) + (p2_y q - 1 / 2) * (p2_y q - 1 / 2)
    = (p2_x p - 1 / 2) * (p2_x p - 1 / 2) + (p2_y p - 1 / 2) * (p2_y p - 1 / 2)
    /\ 0 <= p2_theta q < PI * 2
    /\ (exists turns : Z, p2_theta q = p2_theta p + r - IZR turns * (PI * 2))
    /\ p2_x (rotate_pose q (- r)) = p2_x p
    /\ p2_y (rotate_pose q (- r)) = p2_y p.
Proof.
  intros [x y t] r. cbv zeta. unfold rotate_pose.
  cbn [p2_x p2_y p2_theta]. rewrite cos_neg, sin_neg.
  pose proof (sin2_cos2 r) as Hsc. unfold Rsqr in Hsc.
  pose proof PI_RGT_0 as HPI.
  split; [|split; [|split; [|split]]].
  - generalize dependent (cos r). generalize dependent (sin r).
    intros s c Hsc. nsatz.
  - unfold np_mod.
    pose proof (base_fp ((t + r) / (PI * 2))) as [Hlo Hhi].
    unfold frac_part in Hlo, Hhi.
    set (z := IZR (Int_part ((t + r) / (PI * 2)))) in *.
    assert (Heq : t + r = (t + r) / (PI * 2) * (PI * 2)) by (field; lra).
    split; nra.
  - exists (Int_part ((t + r) / (PI * 2))). reflexivity.
  - generalize dependent (cos r). generalize dependent (sin r).
    intros s c Hsc. nsatz.
  - generalize dependent (cos r). generalize dependent (sin r).
    intros s c Hsc. nsatz.
Qed.

End SceneRotation.

(** ** Recovering a sampled selection *)

Section SampleThenRecover.

Variable on_neg_inf : outcome (list rule).

Lemma select_by_flags_subset (own : list rule) :
  forall (flags : list bool) (selected : list rule),
    select_by_flags own flags = Ok selected ->
    Forall (fun r => In r own) selected.
Proof.
  induction own as [|r own IH]; intros flags selected H; simpl in H.
  - injection H as <-. constructor.
  - destruct flags as [|b flags]; [discriminate|].
    destruct (select_by_flags own flags) as [out|] eqn:E;
      cbn [Py.bind] in H; [|discriminate].
    injection H as <-. specialize (IH _ _ E).
    assert (Hout : Forall (fun r0 => In r0 (r :: own)) out).
    { eapply Forall_impl; [|exact IH]. intros a Ha. now right. }
    destruct b; [constructor; [now left|]|]; assumption.
Qed.

Lemma select_by_flags_membership (own : list rule) :
  NoDup own ->
  forall (flags : list bool) (selected : list rule),
    List.length flags = List.length own ->
    select_by_flags own flags = Ok selected ->
    map (fun r => Py.contains r selected) own = flags.
Proof.
  induction 1 as [|r own Hr Hnd IH]; intros flags selected Hlen H.
  - destruct flags; [reflexivity|discriminate].
  - destruct flags as [|b flags]; [discriminate|]. simpl in H.
    destruct (select_by_flags own flags) as [out|] eqn:E;
      cbn [Py.bind] in H; [|discriminate].
    injection H as <-.
    pose proof (select_by_flags_subset _ _ E) as Hsub.
    assert (Hr_out : Py.contains r out = false).
    { apply not_true_is_false. intros Hc. apply contains_In in Hc.
      rewrite Forall_forall in Hsub. apply Hr. now apply Hsub. }
    cbn [map]. f_equal.
    + destruct b; [|exact Hr_out].
      rewrite contains_cons. now rewrite Nat.eqb_refl.
    + rewrite <- (IH flags out) by (simpl in Hlen; lia || assumption).
      apply map_ext_in. intros r' Hr'.
      destruct b; [|reflexivity].
      rewrite contains_cons.
      replace (Nat.eqb r' r) with false; [reflexivity|].
      symmetry. apply Nat.eqb_neq. intros ->. contradiction.
Qed.

Lemma select_by_flags_total (own : list rule) (flags : list bool) :
  List.length flags = List.length own ->
  exists selected, select_by_flags own flags = Ok selected.
Proof.
  revert flags. induction own as [|r own IH]; intros flags Hlen.
  - exists []. reflexivity.
  - destruct flags as [|b flags]; [discriminate|]. simpl.
    destruct (IH flags) as (out & ->); [simpl in Hlen; lia|].
    eexists. reflexivity.
Qed.

(** X28.  For an IndependentSet node with pairwise distinct rules,
    recovering the selection of the rules that unobserved sampling
    returned gives back the 0/1 tensor the sampler drew. *)
Theorem independent_set_recovers_its_sample :
  forall (self : IndependentSetNode.t) (draw : list bool),
    NoDup self.(IndependentSetNode.production_rules) ->
    List.length draw = List.length self.(IndependentSetNode.production_rules) ->
    exists selected : list rule,
      IndependentSetNode_sample_production_rules on_neg_inf self draw None
      = Ok selected
      /\ IndependentSetNode._recover_selected_rules self selected
         = Ok (Selection draw).
Proof.
  intros self draw Hnd Hlen.
  unfold IndependentSetNode_sample_production_rules.
  cbn [Py.bind pyro_sample].
  destruct (@select_by_flags_total
              (IndependentSetNode.production_rules self) draw Hlen)
    as (selected & E).
  rewrite E. exists selected. split; [reflexivity|].
  unfold IndependentSetNode._recover_selected_rules.
  rewrite repeat_false_map.
  rewrite (@independent_recover_loop_flags _ selected Hnd
             (select_by_flags_subset _ _ E)).
  cbn [orb]. do 2 f_equal.
  now apply select_by_flags_membership.
Qed.

End SampleThenRecover.

Lemma independent_set_recovers_its_sample_witness :
  let self := IndependentSetNode.mk "table" [0; 1; 2; 3]%nat
                [1 # 2; 1 # 2; 1 # 2; 1 # 2]%Q in
  NoDup self.(IndependentSetNode.production_rules)
  /\ List.length [true; false; false; true]
     = List.length self.(IndependentSetNode.production_rules)
  /\ exists selected : list rule,
       IndependentSetNode_sample_production_rules (Raise RuntimeError) self
         [true; false; false; true] None = Ok selected
       /\ IndependentSetNode._recover_selected_rules self selected
          = Ok (Selection [true; false; false; true]).
Proof.
  intros self.
  assert (Hnd : NoDup self.(IndependentSetNode.production_rules)).
  { simpl. repeat constructor; simpl; intuition lia. }
  split; [exact Hnd|]. split; [reflexivity|].
  exact (@independent_set_recovers_its_sample (Raise RuntimeError) self
           [true; false; false; true] Hnd eq_refl).
Defined.

Section CovaryingSampleThenRecover.

Variable on_neg_inf : outcome (list rule).

Lemma bits_value_mod (d : nat) :
  forall count k : nat,
    (bits_value d k count + d mod 2 ^ k = d mod 2 ^ (k + count))%nat.
Proof.
  induction count as [|count IH]; intros k; cbn [bits_value].
  - now rewrite Nat.add_0_r.
  - specialize (IH (S k)).
    replace (k + S count)%nat with (S k + count)%nat by lia.
    rewrite <- IH. rewrite bit_set_testbit.
    assert (Hstep : (d mod 2 ^ S k
                     = d mod 2 ^ k + 2 ^ k * Nat.b2n (Nat.testbit d k))%nat).
    { rewrite Nat.pow_succ_r', (Nat.mul_comm 2).
      rewrite Nat.Div0.mod_mul_r. now rewrite Nat.testbit_spec'. }
    rewrite Hstep. destruct (Nat.testbit d k); simpl Nat.b2n; lia.
Qed.

Lemma recover_of_selected (d : nat) (suf : list rule) :
  forall (pre : list rule) (acc : nat),
    NoDup (pre ++ suf) ->
    CovaryingSetNode.recover_loop (pre ++ suf)
      (select_by_bits (List.length pre) suf d) acc
    = Ok (Selection
            (acc + bits_value d (List.length pre) (List.length suf))%nat).
Proof.
  induction suf as [|r suf IH]; intros pre acc Hnd;
    cbn [select_by_bits bits_value List.length].
  - simpl. do 2 f_equal. lia.
  - assert (Hrec : forall acc',
               CovaryingSetNode.recover_loop (pre ++ r :: suf)
                 (select_by_bits (S (List.length pre)) suf d) acc'
               = Ok (Selection
                       (acc' + bits_value d (S (List.length pre))
                                 (List.length suf))%nat)).
    { intros acc'.
      replace (S (List.length pre)) with (List.length (pre ++ [r]))
        by (rewrite length_app; simpl; lia).
      replace (pre ++ r :: suf)%list with ((pre ++ [r]) ++ suf)%list
        by (now rewrite <- app_assoc).
      apply IH. now rewrite <- app_assoc. }
    destruct (bit_set d (List.length pre)).
    + cbn [CovaryingSetNode.recover_loop].
      assert (Hin : Py.contains r (pre ++ r :: suf) = true).
      { apply contains_In. apply in_or_app. right. now left. }
      rewrite Hin. cbn [negb].
      assert (Hidx : Py.index r (pre ++ r :: suf) = Ok (List.length pre)).
      { apply index_of_nth; [assumption|].
        rewrite nth_error_app2 by lia. now rewrite Nat.sub_diag. }
      rewrite Hidx. cbn [Py.bind]. rewrite Hrec. do 2 f_equal. lia.
    + rewrite Hrec. do 2 f_equal.
Qed.

(** X29.  For a constructed CovaryingSet node with pairwise distinct
    rules, recovering the combination of the rules that unobserved
    sampling returned for a drawn index below 2^n gives back that index,
    and the bound assertion of the recovery holds. *)
Theorem covarying_set_recovers_its_sample :
  forall (name : string) (rules : list rule) (hints : list (list Z * Q))
         (remaining_weight : Q) (self : CovaryingSetNode.t) (draw : nat),
    CovaryingSetNode.__init__ name rules hints remaining_weight = Ok self ->
    NoDup rules ->
    (draw < 2 ^ List.length rules)%nat ->
    exists selected : list rule,
      CovaryingSetNode_sample_production_rules on_neg_inf self draw None
      = Ok selected
      /\ CovaryingSetNode._recover_selected_rules self selected
         = Ok (Selection draw).
Proof.
  intros name rules hints rw self draw Hinit Hnd Hdraw.
  pose proof (covarying_set_weights_length _ _ _ _ Hinit) as Hlen.
  assert (Hrules : self.(CovaryingSetNode.production_rules) = rules).
  { destruct (covarying_set_constructed _ _ _ _ Hinit) as (w & _ & _ & _ & ->).
    reflexivity. }
  unfold CovaryingSetNode_sample_production_rules.
  cbn [Py.bind pyro_sample]. eexists. split; [reflexivity|].
  unfold CovaryingSetNode._recover_selected_rules. rewrite Hrules.
  pose proof (@recover_of_selected draw rules [] 0%nat Hnd) as Hrec.
  change ([] ++ rules)%list with rules in Hrec.
  change (List.length (@nil rule)) with 0%nat in Hrec.
  rewrite Hrec. cbn [Py.bind].
  pose proof (bits_value_mod draw (List.length rules) 0) as Hmod.
  rewrite Nat.pow_0_r, Nat.mod_1_r, Nat.add_0_r in Hmod.
  simpl (0 + _)%nat in *. rewrite Hmod, Nat.mod_small by assumption.
  unfold Py.assert.
  replace (draw <=? List.length (CovaryingSetNode.exhaustive_set_weights self))%nat
    with true by (symmetry; apply Nat.leb_le; lia).
  reflexivity.
Qed.

End CovaryingSampleThenRecover.

Lemma covarying_set_recovers_its_sample_witness :
  CovaryingSetNode.__init__ "setting" [0; 1; 2]%nat [([0; 2]%Z, 1%Q)] 0
  = Ok (CovaryingSetNode.mk "setting"
          [Some (0 # 1); Some (0 # 1); Some (0 # 1); Some (0 # 1);
           Some (0 # 1); Some (1 # 1); Some (0 # 1); Some (0 # 1);
           Some (0 # 1)]%Q
          [0; 1; 2]%nat)
  /\ NoDup [0; 1; 2]%nat
  /\ (5 < 2 ^ List.length [0; 1; 2]%nat)%nat
  /\ exists selected : list rule,
       CovaryingSetNode_sample_production_rules (Raise RuntimeError)
         (CovaryingSetNode.mk "setting"
            [Some (0 # 1); Some (0 # 1); Some (0 # 1); Some (0 # 1);
             Some (0 # 1); Some (1 # 1); Some (0 # 1); Some (0 # 1);
             Some (0 # 1)]%Q
            [0; 1; 2]%nat)
         5 None = Ok selected
       /\ CovaryingSetNode._recover_selected_rules
            (CovaryingSetNode.mk "setting"
               [Some (0 # 1); Some (0 # 1); Some (0 # 1); Some (0 # 1);
                Some (0 # 1); Some (1 # 1); Some (0 # 1); Some (0 # 1);
                Some (0 # 1)]%Q
               [0; 1; 2]%nat)
            selected
          = Ok (Selection 5%nat).
Proof.
  assert (H1 : NoDup [0; 1; 2]%nat)
    by (repeat constructor; simpl; intuition lia).
  assert (H2 : (5 < 2 ^ List.length [0; 1; 2]%nat)%nat) by (simpl; lia).
  split; [reflexivity|]. split; [exact H1|]. split; [exact H2|].
  exact (@covarying_set_recovers_its_sample (Raise RuntimeError)
           "setting" [0; 1; 2]%nat [([0; 2]%Z, 1%Q)] 0%Q _ 5%nat
           eq_refl H1 H2).
Defined.

(** ** The dish bin as it is configured *)

Section DishBinConfiguration.
Local Open Scope R_scope.

Lemma mm_identity_left (q : Pose6) :
  mm [ [1; 0; 0; 0]; [0; 1; 0; 0]; [0; 0; 1; 0]; [0; 0; 0; 1] ]
     (pose_to_tf_matrix q)
  = pose_to_tf_matrix q.
Proof.
  unfold pose_to_tf_matrix. rewrite rotation_tensor_entries.
  unfold mm, column, dot, entry. cbn. repeat (f_equal; try ring).
Qed.

Lemma mm_identity_squared :
  mm [ [1; 0; 0; 0]; [0; 1; 0; 0]; [0; 0; 1; 0]; [0; 0; 0; 1] ]
     [ [1; 0; 0; 0]; [0; 1; 0; 0]; [0; 0; 1; 0]; [0; 0; 0; 1] ]
  = [ [1; 0; 0; 0]; [0; 1; 0; 0]; [0; 0; 1; 0]; [0; 0; 0; 1] ].
Proof. unfold mm, column, dot. cbn. repeat (f_equal; try ring). Qed.

(** X30.  With the parent and the rule both at the origin, as [DishBin]
    sets them up, the dish-bin rule chains a principal relative offset
    forward to itself, and the recovery returns the offset from the
    absolute pose: there the forward chain and its recovery agree. *)
Theorem dish_bin_round_trip_at_origin :
  forall (name : string) (product_type : node_class) (rel_offset : Pose6),
    principal_rpy rel_offset ->
    let self :=
      DishBin.ObjectProductionRule.mk name Examples.origin6 product_type in
    let abs_offset :=
      DishBin.ObjectProductionRule.forward_chain self Examples.origin6
        rel_offset in
    abs_offset = rel_offset
    /\ DishBin.ObjectProductionRule._recover_rel_offset_from_abs_offset self
         Examples.origin6 abs_offset = rel_offset.
Proof.
  intros name cls rel Hrel self abs_offset.
  assert (Habs : abs_offset = rel).
  { subst abs_offset self.
    unfold DishBin.ObjectProductionRule.forward_chain.
    cbn [DishBin.ObjectProductionRule.pose].
    rewrite pose_to_tf_matrix_origin, mm_identity_squared, mm_identity_left.
    now apply tf_matrix_to_pose_of_pose. }
  split; [exact Habs|]. rewrite Habs. subst self.
  unfold DishBin.ObjectProductionRule._recover_rel_offset_from_abs_offset.
  cbn [DishBin.ObjectProductionRule.pose].
  rewrite pose_to_tf_matrix_origin, invert_identity_left.
  now apply tf_matrix_to_pose_of_pose.
Qed.

End DishBinConfiguration.

Lemma dish_bin_round_trip_at_origin_witness :
  principal_rpy Examples.unit_x6
  /\ DishBin.ObjectProductionRule.forward_chain
       (DishBin.ObjectProductionRule.mk "dish_bin_prod_mug_1_000"
          Examples.origin6 Mug_1)
       Examples.origin6 Examples.unit_x6
     = Examples.unit_x6
  /\ DishBin.ObjectProductionRule._recover_rel_offset_from_abs_offset
       (DishBin.ObjectProductionRule.mk "dish_bin_prod_mug_1_000"
          Examples.origin6 Mug_1)
       Examples.origin6
       (DishBin.ObjectProductionRule.forward_chain
          (DishBin.ObjectProductionRule.mk "dish_bin_prod_mug_1_000"
             Examples.origin6 Mug_1)
          Examples.origin6 Examples.unit_x6)
     = Examples.unit_x6.
Proof.
  assert (H : principal_rpy Examples.unit_x6).
  { pose proof PI_RGT_0 as HPI. unfold principal_rpy. simpl.
    repeat split; lra. }
  split; [exact H|].
  exact (@dish_bin_round_trip_at_origin "dish_bin_prod_mug_1_000" Mug_1
           Examples.unit_x6 H).
Defined.
